(** * NiftyMIC: the reconstruction script and the N4 bias-field wrapper

    A shallow embedding of

    - [bin/reconstructVolumeFromSlices.py], the command-line script that
      chains the Tikhonov solver with the ADMM / Primal-Dual solvers, and
    - [src/py/preprocessing/N4BiasFieldCorrection.py], the wrapper around
      the out-of-process N4 image filter.

    The script talks to collaborators whose code lives elsewhere (data
    readers, stacks, solvers, helpers).  Every such call is an event of a
    free monad; a _world_ answers the calls, and all theorems about the
    script hold for every world.  The N4 wrapper is modelled over an
    explicit file system and object heap. *)

From Stdlib Require Import Ascii QArith.
From stdpp Require Import base option list strings gmap fin_maps.

Local Open Scope Z_scope.
Local Open Scope string_scope.
Local Open Scope list_scope.

(** Python's [float] values are only passed through by the code modelled
    here (never computed with); they are carried as rationals. *)
Abbreviation float := Q.

(* ===================================================================== *)
(** * Part I: [bin/reconstructVolumeFromSlices.py]                        *)
(* ===================================================================== *)

Module Script.

(** ** Values *)

(** Objects owned by the collaborators are opaque references. *)
Inductive reader := Reader (id : nat).
Inductive stack := StackRef (id : nat).
Inductive solver := Solver (id : nat).
Inductive sitk_image := Image (id : nat).

(** The namespace returned by [input_parser.parse_args()] (lines 46-68). *)
Record Args := {
  dir_input : option string;
  filenames : option (list string);
  image_selection : option (list string);
  dir_output : string;
  suffix_mask : string;
  target_stack_index : Z;
  extra_frame_target : float;
  isotropic_resolution : option float;
  reconstruction_space : option string;
  minimizer : string;
  iter_max : Z;
  reg_type : string;
  data_loss : string;
  data_loss_scale : float;
  alpha : float;
  rho : float;
  tv_solver : string;
  pd_alg_type : string;
  iterations : Z;
  provide_comparison : Z;
  log_script_execution : Z;
  verbose : Z
}.

(** The namespace for a command line that gives (or not) [--dir-input],
    [--filenames], [--reconstruction-space], [--reg-type], [--tv-solver]
    and leaves every other option at the default declared on lines 49-67. *)
Definition command_line (dir : option string) (files : option (list string))
    (space : option string) (reg tv : string) : Args := {|
  dir_input := dir;
  filenames := files;
  image_selection := None;
  dir_output := "results/";
  suffix_mask := "_mask";
  target_stack_index := 0;
  extra_frame_target := 10%Q;
  isotropic_resolution := None;
  reconstruction_space := space;
  minimizer := "lsmr";
  iter_max := 10;
  reg_type := reg;
  data_loss := "linear";
  data_loss_scale := 1%Q;
  alpha := (2 # 100)%Q;
  rho := (1 # 2)%Q;
  tv_solver := tv;
  pd_alg_type := "ALG2";
  iterations := 10;
  provide_comparison := 1;
  log_script_execution := 1;
  verbose := 1
|}.

(** Keyword arguments of the three solver constructors, as the script
    passes them (lines 118-128, 144-154, 165-176). *)
Record TikhonovSolver_kwargs := {
  tk_stacks : list stack;
  tk_reconstruction : stack;
  tk_alpha : float;
  tk_iter_max : Z;
  tk_reg_type : string;
  tk_minimizer : string;
  tk_data_loss : string;
  tk_data_loss_scale : float;
  tk_verbose : Z
}.

Record ADMMSolver_kwargs := {
  admm_stacks : list stack;
  admm_reconstruction : stack;
  admm_minimizer : string;
  admm_alpha : float;
  admm_iter_max : Z;
  admm_rho : float;
  admm_data_loss : string;
  admm_iterations : Z;
  admm_verbose : Z
}.

Record PrimalDualSolver_kwargs := {
  pd_stacks : list stack;
  pd_reconstruction : stack;
  pd_minimizer : string;
  pd_alpha : float;
  pd_iter_max : Z;
  pd_iterations : Z;
  pd_alg : string;
  pd_reg_type : string;
  pd_data_loss : string;
  pd_verbose : Z
}.

(** ** Calls into the collaborators

    One constructor per function or method the script calls, indexed by
    the type of what it returns. *)
Inductive call : Type -> Type :=
  (* input_parser *)
  | print_arguments (a : Args) : call unit
  | write_performed_script_execution : call unit
  (* ph *)
  | print_title (title : string) : call unit
  | print_line_separator : call unit
  (* dr *)
  | ImageSlicesDirectoryReader
      (path_to_directory suffix : string) (selection : option (list string))
      : call reader
  | MultipleImagesReader (file_names : list string) (suffix : string)
      : call reader
  | read_data (r : reader) : call unit
  | get_stacks (r : reader) : call (list stack)
  (* st.Stack and Stack objects *)
  | get_isotropically_resampled_stack
      (s : stack) (spacing_new_scalar : option float) (extra_frame : float)
      : call stack
  | Stack_from_filename (file : string) (extract_slices : bool) : call stack
  | Stack_sitk (s : stack) : call sitk_image
  | get_resampled_stack (s : stack) (grid : sitk_image) : call stack
  | Stack_from_stack (s : stack) : call stack
  | set_filename (s : stack) (name : string) : call unit
  | write (s : stack) (directory : string) : call unit
  (* tk, admm, pd and solver objects *)
  | TikhonovSolver (kw : TikhonovSolver_kwargs) : call solver
  | ADMMSolver (kw : ADMMSolver_kwargs) : call solver
  | PrimalDualSolver (kw : PrimalDualSolver_kwargs) : call solver
  | run_reconstruction (s : solver) : call unit
  | compute_statistics (s : solver) : call unit
  | print_statistics (s : solver) : call unit
  | get_reconstruction (s : solver) : call stack
  | get_setting_specific_filename (s : solver) : call string
  (* sitkh *)
  | show_stacks
      (stacks : list stack) (show_comparison_file : option Z)
      (dir : option string)
      : call unit.

(** ** Exceptions *)

(** What a collaborator raises is opaque to the script: it is identified
    by a string. *)
Definition foreign := string.

Inductive exn :=
  | NameError (name : string)   (* a global name that is not bound *)
  | IndexError                  (* list index out of range *)
  | IOError (msg : string)      (* [Exceptions.IOError], the input error *)
  | Raised (e : foreign).       (* raised inside a collaborator *)

(** The input error of the script is the only configuration-class error
    it knows. *)
Definition is_configuration_error (e : exn) : bool :=
  match e with IOError _ => true | _ => false end.

(** ** Programs *)

Inductive Prog (A : Type) : Type :=
  | Ret (a : A)
  | Raise (e : exn)
  | Vis {X : Type} (c : call X) (k : X -> Prog A).
Arguments Ret {A} a.
Arguments Raise {A} e.
Arguments Vis {A X} c k.

Fixpoint bind {A B} (p : Prog A) (f : A -> Prog B) : Prog B :=
  match p with
  | Ret a => f a
  | Raise e => Raise e
  | Vis c k => Vis c (fun x => bind (k x) f)
  end.

#[global] Instance Prog_ret : MRet Prog := @Ret.
#[global] Instance Prog_bind : MBind Prog := fun A B f p => bind p f.

Definition trigger {X} (c : call X) : Prog X := Vis c Ret.

(** ** Worlds, events and runs *)

Inductive event :=
  | Ev {X : Type} (c : call X) (r : foreign + X).

Abbreviation trace := (list event).

(** A world answers a call, knowing everything that happened so far, with
    a value or with an exception. *)
Definition world := forall X, trace -> call X -> foreign + X.

Fixpoint run {A} (w : world) (p : Prog A) (h : trace) : trace * (exn + A) :=
  match p with
  | Ret a => (h, inr a)
  | Raise e => (h, inl e)
  | Vis c k =>
      match w _ h c with
      | inl e => (h ++ [Ev c (inl e)], inl (Raised e))
      | inr x => run w (k x) (h ++ [Ev c (inr x)])
      end
  end.

Definition exec {A} (w : world) (p : Prog A) : trace * (exn + A) :=
  run w p [].

(** ** Python helpers *)

(** Names bound at module level by the import statements (lines 14-29). *)
Definition module_globals : list string :=
  [ "sitk"; "argparse"; "np"; "sys"; "os"; "ph"; "sitkh";
    "dr"; "st"; "tk"; "admm"; "pd"; "InputArgparser" ].

(** Evaluating a global name: a name that no import bound raises
    [NameError]. *)
Definition global (name : string) : Prog unit :=
  if existsb (String.eqb name) module_globals
  then Ret tt
  else Raise (NameError name).

(** [m.f(...)]: look [m] up, then call. *)
Definition via {X} (m : string) (c : call X) : Prog X :=
  global m ;; trigger c.

(** Truth value of an [int]. *)
Definition truthy (z : Z) : bool := negb (z =? 0)%Z.

(** [l[i]] on a list, with negative indices counted from the end. *)
Definition py_index {A} (l : list A) (i : Z) : option A :=
  let n := Z.of_nat (length l) in
  if (0 <=? i)%Z then l !! Z.to_nat i
  else if (- n <=? i)%Z then l !! Z.to_nat (n + i)
  else None.

Definition getitem {A} (l : list A) (i : Z) : Prog A :=
  match py_index l i with
  | Some x => Ret x
  | None => Raise IndexError
  end.

(** [for i in range(0, len(stacks)): recons.append(stacks[i])]
    (lines 139-140), the indices being [seq 0 (length stacks)]. *)
Fixpoint append_loop (stacks : list stack) (indices : list nat)
    (recons : list stack) : Prog (list stack) :=
  match indices with
  | [] => Ret recons
  | i :: rest =>
      s ← getitem stacks (Z.of_nat i);
      append_loop stacks rest (recons ++ [s])
  end.

(** [os.path.join(a, b)] for a relative [b]. *)
Fixpoint ends_with_slash (a : string) : bool :=
  match a with
  | EmptyString => false
  | String c EmptyString => Ascii.eqb c "/"%char
  | String _ rest => ends_with_slash rest
  end.

Definition os_path_join (a b : string) : string :=
  if String.eqb a "" then b
  else if ends_with_slash a then a +:+ b
  else a +:+ "/" +:+ b.

(** ** The script (lines 69-197)

    Lines 34-68 time the run, set numpy's print options and declare the
    command-line parser; their outcome is [args]. *)

(** [raise Exceptions.IOError(msg)]: the exception object is built from
    the global [Exceptions] before it can be raised. *)
Definition raise_Exceptions_IOError {A} (msg : string) : Prog A :=
  global "Exceptions" ;; Raise (IOError msg).

(** Lines 79-99: the data reader. *)
Definition make_reader (args : Args) : Prog reader :=
  match filenames args, dir_input args with
  | Some _, Some _ =>
      raise_Exceptions_IOError
        "Provide input by either '--dir-input' or '--filenames' but not both together"
  | _, Some d =>
      via "dr" (ImageSlicesDirectoryReader d (suffix_mask args)
                  (image_selection args))
  | Some f, None =>
      via "dr" (MultipleImagesReader f (suffix_mask args))
  | None, None =>
      raise_Exceptions_IOError
        "Provide input by either '--dir-input' or '--filenames'"
  end.

(** Lines 107-116: the initial value of the reconstruction. *)
Definition initial_reconstruction (args : Args) (stacks : list stack)
    : Prog stack :=
  match reconstruction_space args with
  | None =>
      target ← getitem stacks (target_stack_index args);
      trigger (get_isotropically_resampled_stack target
                 (isotropic_resolution args) (extra_frame_target args))
  | Some file =>
      recon0 ← via "st" (Stack_from_filename file false);
      target ← getitem stacks (target_stack_index args);
      grid ← trigger (Stack_sitk recon0);
      trigger (get_resampled_stack target grid)
  end.

(** Lines 118-135: the Tikhonov pass; returns [SRR0] and [recon]. *)
Definition tikhonov_pass (args : Args) (stacks : list stack) (recon0 : stack)
    : Prog (solver * stack) :=
  SRR0 ← via "tk" (TikhonovSolver {|
    tk_stacks := stacks;
    tk_reconstruction := recon0;
    tk_alpha := alpha args;
    tk_iter_max := iter_max args;
    tk_reg_type := "TK1";
    tk_minimizer := minimizer args;
    tk_data_loss := data_loss args;
    tk_data_loss_scale := data_loss_scale args;
    tk_verbose := verbose args |});
  trigger (run_reconstruction SRR0) ;;
  trigger (compute_statistics SRR0) ;;
  trigger (print_statistics SRR0) ;;
  recon ← trigger (get_reconstruction SRR0);
  name ← trigger (get_setting_specific_filename SRR0);
  trigger (set_filename recon name) ;;
  trigger (write recon (dir_output args)) ;;
  mret (SRR0, recon).

(** Lines 143-183: the refinement; returns the list [recons]. *)
Definition refinement (args : Args) (stacks : list stack) (SRR0 : solver)
    (recons : list stack) : Prog (list stack) :=
  if String.eqb (reg_type args) "TV" && String.eqb (tv_solver args) "ADMM"
  then
    global "admm" ;;
    global "st" ;;
    estimate ← trigger (get_reconstruction SRR0);
    init ← trigger (Stack_from_stack estimate);
    SRR ← trigger (ADMMSolver {|
      admm_stacks := stacks;
      admm_reconstruction := init;
      admm_minimizer := minimizer args;
      admm_alpha := alpha args;
      admm_iter_max := iter_max args;
      admm_rho := rho args;
      admm_data_loss := data_loss args;
      admm_iterations := iterations args;
      admm_verbose := verbose args |});
    trigger (run_reconstruction SRR) ;;
    trigger (print_statistics SRR) ;;
    recon ← trigger (get_reconstruction SRR);
    name ← trigger (get_setting_specific_filename SRR);
    trigger (set_filename recon name) ;;
    trigger (write recon (dir_output args)) ;;
    mret (recon :: recons)
  else if (String.eqb (reg_type args) "TV"
           || String.eqb (reg_type args) "huber")
          && String.eqb (tv_solver args) "PD"
  then
    global "pd" ;;
    global "st" ;;
    estimate ← trigger (get_reconstruction SRR0);
    init ← trigger (Stack_from_stack estimate);
    SRR ← trigger (PrimalDualSolver {|
      pd_stacks := stacks;
      pd_reconstruction := init;
      pd_minimizer := minimizer args;
      pd_alpha := alpha args;
      pd_iter_max := iter_max args;
      pd_iterations := iterations args;
      pd_alg := pd_alg_type args;
      pd_reg_type := reg_type args;
      pd_data_loss := data_loss args;
      pd_verbose := verbose args |});
    trigger (run_reconstruction SRR) ;;
    trigger (print_statistics SRR) ;;
    recon ← trigger (get_reconstruction SRR);
    name ← trigger (get_setting_specific_filename SRR);
    trigger (set_filename recon name) ;;
    trigger (write recon (dir_output args)) ;;
    mret (recon :: recons)
  else mret recons.

(** Lines 185-197: display. *)
Definition display (args : Args) (recons : list stack) : Prog unit :=
  (if truthy (verbose args) && negb (truthy (provide_comparison args))
   then via "sitkh" (show_stacks recons None None)
   else mret tt) ;;
  (if truthy (provide_comparison args)
   then
     global "sitkh" ;;
     global "os" ;;
     trigger (show_stacks recons (Some (provide_comparison args))
                (Some (os_path_join (dir_output args) "comparison")))
   else mret tt) ;;
  via "ph" print_line_separator.

Definition main (args : Args) : Prog unit :=
  trigger (print_arguments args) ;;
  (if truthy (log_script_execution args)
   then global "os" ;; trigger write_performed_script_execution
   else mret tt) ;;
  via "ph" (print_title "Read Data") ;;
  data_reader ← make_reader args;
  trigger (read_data data_reader) ;;
  stacks ← trigger (get_stacks data_reader);
  recon0 ← initial_reconstruction args stacks;
  '(SRR0, recon) ← tikhonov_pass args stacks recon0;
  recons ← append_loop stacks (seq 0 (length stacks)) [];
  let recons := recon :: recons in
  recons ← refinement args stacks SRR0 recons;
  display args recons.

(** ** A program logic for [Prog]

    [wp p h post]: on every path through [p] started with history [h],
    whatever the world answers, the final history and result satisfy
    [post]. *)
Fixpoint wp {A} (p : Prog A) (h : trace) (post : trace -> exn + A -> Prop)
    : Prop :=
  match p with
  | Ret a => post h (inr a)
  | Raise e => post h (inl e)
  | Vis c k =>
      (forall e, post (h ++ [Ev c (inl e)]) (inl (Raised e))) /\
      (forall x, wp (k x) (h ++ [Ev c (inr x)]) post)
  end.

(** ** Observations on traces *)

(** The solvers the refinement stage can construct. *)
Inductive flavor :=
  | ADMM
  | PrimalDual (alg_type : string).

#[global] Instance solver_eq_dec : EqDecision solver.
Proof. solve_decision. Defined.

(** A call of the ADMM or Primal-Dual constructor, with the initial
    estimate passed as [reconstruction]. *)
Definition constructs (e : event) : option (flavor * stack) :=
  match e with
  | Ev c _ =>
      match c with
      | ADMMSolver kw => Some (ADMM, admm_reconstruction kw)
      | PrimalDualSolver kw =>
          Some (PrimalDual (pd_alg kw), pd_reconstruction kw)
      | _ => None
      end
  end.

Definition tv_solvers (tr : trace) : list (flavor * stack) :=
  omap constructs tr.

(** The solver object a successful ADMM or Primal-Dual constructor call
    returned. *)
Definition constructed (e : event) : option (flavor * solver) :=
  match e with
  | Ev c r =>
      match c in call X return foreign + X -> option (flavor * solver) with
      | ADMMSolver _ => fun r =>
          match r with inr s => Some (ADMM, s) | inl _ => None end
      | PrimalDualSolver kw => fun r =>
          match r with
          | inr s => Some (PrimalDual (pd_alg kw), s)
          | inl _ => None
          end
      | _ => fun _ => None
      end r
  end.

(** The solver a completed [run_reconstruction()] was called on. *)
Definition ran (e : event) : option solver :=
  match e with
  | Ev c r =>
      match c in call X return foreign + X -> option solver with
      | run_reconstruction s => fun r =>
          match r with inr _ => Some s | inl _ => None end
      | _ => fun _ => None
      end r
  end.

(** The TV-type solvers that were constructed and then run to the end. *)
Fixpoint refinement_runs (tr : trace) : list flavor :=
  match tr with
  | [] => []
  | e :: rest =>
      match constructed e, head rest ≫= ran with
      | Some (f, s), Some s' =>
          if decide (s = s') then f :: refinement_runs rest
          else refinement_runs rest
      | _, _ => refinement_runs rest
      end
  end.

(** A call of any solver constructor or of [run_reconstruction()]. *)
Definition is_solver_call (e : event) : bool :=
  match e with
  | Ev c _ =>
      match c with
      | TikhonovSolver _ | ADMMSolver _ | PrimalDualSolver _
      | run_reconstruction _ => true
      | _ => false
      end
  end.

(** A call that creates a data reader or reads through one. *)
Definition is_reader_call (e : event) : bool :=
  match e with
  | Ev c _ =>
      match c with
      | ImageSlicesDirectoryReader _ _ _ | MultipleImagesReader _ _
      | read_data _ | get_stacks _ | Stack_from_filename _ _ => true
      | _ => false
      end
  end.

(** The [reg_type] a Tikhonov constructor call was given. *)
Definition tikhonov_reg_type (e : event) : option string :=
  match e with
  | Ev c _ =>
      match c with
      | TikhonovSolver kw => Some (tk_reg_type kw)
      | _ => None
      end
  end.

(** The stacks a completed [get_stacks()] returned. *)
Definition yields_stacks (e : event) : option (list stack) :=
  match e with
  | Ev c r =>
      match c in call X return foreign + X -> option (list stack) with
      | get_stacks _ => fun r =>
          match r with inr l => Some l | inl _ => None end
      | _ => fun _ => None
      end r
  end.

(** A completed [write(directory)] on a stack. *)
Definition written (e : event) : option (stack * string) :=
  match e with
  | Ev c r =>
      match c in call X return foreign + X -> option (stack * string) with
      | write s d => fun r =>
          match r with inr _ => Some (s, d) | inl _ => None end
      | _ => fun _ => None
      end r
  end.

Definition writes (tr : trace) : list (stack * string) := omap written tr.

(** A completed [get_reconstruction()]: the solver and what it handed out. *)
Definition obtained (e : event) : option (solver * stack) :=
  match e with
  | Ev c r =>
      match c in call X return foreign + X -> option (solver * stack) with
      | get_reconstruction s => fun r =>
          match r with inr x => Some (s, x) | inl _ => None end
      | _ => fun _ => None
      end r
  end.

Definition reconstructions (tr : trace) : list (solver * stack) :=
  omap obtained tr.

(** [init] is a copy of the reconstruction of a Tikhonov solver that has
    completed its run: the four events occur, in this order, in [before]. *)
Definition seeded (before : trace) (init : stack) : Prop :=
  exists kw SRR0 estimate,
    [ Ev (TikhonovSolver kw) (inr SRR0);
      Ev (run_reconstruction SRR0) (inr tt);
      Ev (get_reconstruction SRR0) (inr estimate);
      Ev (Stack_from_stack estimate) (inr init) ] `sublist_of` before.

(** Every ADMM / Primal-Dual constructor call in [tr] is given a seeded
    initial estimate. *)
Definition warm_started (tr : trace) : Prop :=
  forall before e after f init,
    tr = before ++ e :: after ->
    constructs e = Some (f, init) ->
    seeded before init.

(** [warm_started], computed along the trace. *)
Fixpoint warm_from (before tr : trace) : Prop :=
  match tr with
  | [] => True
  | e :: rest =>
      match constructs e with
      | Some (_, init) => seeded before init
      | None => True
      end
      /\ warm_from (before ++ [e]) rest
  end.

(** Some ADMM / Primal-Dual constructor call in [tr] is given a seeded
    initial estimate. *)
Definition seeds_a_refinement (tr : trace) : Prop :=
  exists before e after f init,
    tr = before ++ e :: after /\
    constructs e = Some (f, init) /\
    seeded before init.

(** The dispatch as the specification words it: TV with ADMM selects the
    ADMM solver, TV or huber with PD selects the Primal-Dual solver in the
    variant [alg_type], nothing else selects a solver. *)
Definition dispatch_spec (a : Args) : option flavor :=
  if decide (reg_type a = "TV" /\ tv_solver a = "ADMM")
  then Some ADMM
  else if decide ((reg_type a = "TV" \/ reg_type a = "huber")
                  /\ tv_solver a = "PD")
  then Some (PrimalDual (pd_alg_type a))
  else None.

(** The six events of the Tikhonov pass that produce and write its
    reconstruction. *)
Definition tikhonov_written (a : Args) (tr : trace) : Prop :=
  exists kw SRR0 recon name,
    tk_reg_type kw = "TK1" /\
    [ Ev (TikhonovSolver kw) (inr SRR0);
      Ev (run_reconstruction SRR0) (inr tt);
      Ev (get_reconstruction SRR0) (inr recon);
      Ev (get_setting_specific_filename SRR0) (inr name);
      Ev (set_filename recon name) (inr tt);
      Ev (write recon (dir_output a)) (inr tt) ] `sublist_of` tr /\
    head (writes tr) = Some (recon, dir_output a).

(** Marks the postcondition at the end of a path through a program. *)
Definition at_leaf (P : Prop) : Prop := P.

(** Both or neither of [--dir-input] and [--filenames]. *)
Definition input_conflict (a : Args) : bool :=
  match filenames a, dir_input a with
  | Some _, Some _ | None, None => true
  | _, _ => false
  end.

(** ** Two concrete worlds *)

(** A world in which nothing fails.  New objects are numbered by the
    length of the history, a solver [n] always hands out the same
    reconstruction object, and the reader holds the stacks [given]. *)
Definition answer (given : list stack) : world :=
  fun X h c =>
    let fresh := length h in
    match c in call X return foreign + X with
    | print_arguments _ => inr tt
    | write_performed_script_execution => inr tt
    | print_title _ => inr tt
    | print_line_separator => inr tt
    | ImageSlicesDirectoryReader _ _ _ => inr (Reader fresh)
    | MultipleImagesReader _ _ => inr (Reader fresh)
    | read_data _ => inr tt
    | get_stacks _ => inr given
    | get_isotropically_resampled_stack _ _ _ => inr (StackRef fresh)
    | Stack_from_filename _ _ => inr (StackRef fresh)
    | Stack_sitk (StackRef n) => inr (Image n)
    | get_resampled_stack _ _ => inr (StackRef fresh)
    | Stack_from_stack _ => inr (StackRef fresh)
    | set_filename _ _ => inr tt
    | write _ _ => inr tt
    | TikhonovSolver _ => inr (Solver fresh)
    | ADMMSolver _ => inr (Solver fresh)
    | PrimalDualSolver _ => inr (Solver fresh)
    | run_reconstruction _ => inr tt
    | compute_statistics _ => inr tt
    | print_statistics _ => inr tt
    | get_reconstruction (Solver n) => inr (StackRef (1000 + n))
    | get_setting_specific_filename (Solver n) =>
        inr (String.concat "_" ("SRR" :: repeat "x" n))
    | show_stacks _ _ _ => inr tt
    end.

Definition three_stacks : world :=
  answer [StackRef 100; StackRef 101; StackRef 102].

Definition no_stacks : world := answer [].

(** Command lines used below. *)
Definition tv_admm : Args :=
  command_line (Some "in/") None None "TV" "ADMM".
Definition tv_pd : Args :=
  command_line None (Some ["a.nii.gz"; "b.nii.gz"]) None "TV" "PD".
Definition huber_pd : Args :=
  command_line (Some "in/") None (Some "space.nii.gz") "huber" "PD".
Definition huber_admm : Args :=
  command_line (Some "in/") None None "huber" "ADMM".
Definition tk1_only : Args :=
  command_line (Some "in/") None None "TK1" "PD".
Definition both_inputs : Args :=
  command_line (Some "in/") (Some ["a.nii.gz"]) None "TK1" "PD".
Definition no_input : Args :=
  command_line None None None "TK1" "PD".

(** ** Further observations *)

(** The exception of a call that raised. *)
Definition failed (e : event) : option foreign :=
  match e with
  | Ev _ r => match r with inl x => Some x | inr _ => None end
  end.

Definition failures (tr : trace) : list foreign := omap failed tr.

(** What a solver constructor call is given: the stacks, the minimizer,
    [alpha], [iter_max] and the data loss. *)
Definition solver_setup (e : event)
    : option (list stack * string * float * Z * string) :=
  match e with
  | Ev c _ =>
      match c with
      | TikhonovSolver kw =>
          Some (tk_stacks kw, tk_minimizer kw, tk_alpha kw, tk_iter_max kw,
                tk_data_loss kw)
      | ADMMSolver kw =>
          Some (admm_stacks kw, admm_minimizer kw, admm_alpha kw,
                admm_iter_max kw, admm_data_loss kw)
      | PrimalDualSolver kw =>
          Some (pd_stacks kw, pd_minimizer kw, pd_alpha kw, pd_iter_max kw,
                pd_data_loss kw)
      | _ => None
      end
  end.

(** The arguments of a [show_stacks] call. *)
Definition shows (e : event)
    : option (list stack * option Z * option string) :=
  match e with
  | Ev c _ =>
      match c with
      | show_stacks l flag dir => Some (l, flag, dir)
      | _ => None
      end
  end.

Definition shown (tr : trace)
    : list (list stack * option Z * option string) :=
  omap shows tr.

(** A call of one of the two reader constructors. *)
Definition opens (e : event) : option (call reader) :=
  match e with
  | Ev c _ =>
      match c with
      | ImageSlicesDirectoryReader p s sel =>
          Some (ImageSlicesDirectoryReader p s sel)
      | MultipleImagesReader f s => Some (MultipleImagesReader f s)
      | _ => None
      end
  end.

Definition readers (tr : trace) : list (call reader) := omap opens tr.

Definition is_compute_statistics (e : event) : bool :=
  match e with
  | Ev c _ => match c with compute_statistics _ => true | _ => false end
  end.

Definition is_print_statistics (e : event) : bool :=
  match e with
  | Ev c _ => match c with print_statistics _ => true | _ => false end
  end.

(** The four ways a run can end: normally; with [NameError] at the input
    check; with [IndexError] at the target index; with what a collaborator
    raised, that call being the only one that failed and the last one
    made. *)
Definition ends_in_one_of_four_ways (a : Args) (tr : trace)
    (res : exn + unit) : Prop :=
  (res = inr tt /\ failures tr = []) \/
  (res = inl (NameError "Exceptions") /\ failures tr = [] /\
   input_conflict a = true) \/
  (res = inl IndexError /\ failures tr = [] /\
   input_conflict a = false /\
   exists stacks,
     omap yields_stacks tr = [stacks] /\
     py_index stacks (target_stack_index a) = None) \/
  (exists e, res = inl (Raised e) /\ failures tr = [e] /\
             last tr ≫= failed = Some e).

(** Every solver of the run is constructed on the stacks the reader
    returned and with the command line's minimizer, [alpha], [iter_max]
    and data loss. *)
Definition solvers_agree (a : Args) (tr : trace) : Prop :=
  Forall (fun '(stacks, mi, al, it, dl) =>
            omap yields_stacks tr = [stacks] /\
            mi = minimizer a /\ al = alpha a /\
            it = iter_max a /\ dl = data_loss a)
    (omap solver_setup tr).

(** One reader is constructed, the one the command line asks for;
    [read_data()] and then [get_stacks()] are called on it. *)
Definition reads_once (a : Args) (tr : trace) : Prop :=
  exists c r stacks,
    readers tr = [c] /\
    omap yields_stacks tr = [stacks] /\
    [ Ev c (inr r);
      Ev (read_data r) (inr tt);
      Ev (get_stacks r) (inr stacks) ] `sublist_of` tr /\
    match dir_input a, filenames a with
    | Some d, None =>
        c = ImageSlicesDirectoryReader d (suffix_mask a) (image_selection a)
    | None, Some f => c = MultipleImagesReader f (suffix_mask a)
    | _, _ => False
    end.

(** The Tikhonov solver starts from a resampling of the target stack, the
    stack at position [target_stack_index] modulo the number of stacks:
    resampled isotropically, or onto the grid of the
    [--reconstruction-space] image. *)
Definition starts_from_target (a : Args) (tr : trace) : Prop :=
  exists stacks target recon0 kw SRR0,
    omap yields_stacks tr = [stacks] /\
    ((- Z.of_nat (length stacks) <= target_stack_index a
      < Z.of_nat (length stacks))%Z /\
     stacks !! Z.to_nat (target_stack_index a `mod` Z.of_nat (length stacks))
     = Some target) /\
    match reconstruction_space a with
    | None =>
        [ Ev (get_isotropically_resampled_stack target
                (isotropic_resolution a) (extra_frame_target a))
            (inr recon0);
          Ev (TikhonovSolver kw) (inr SRR0) ] `sublist_of` tr
    | Some file =>
        exists space grid,
          [ Ev (Stack_from_filename file false) (inr space);
            Ev (Stack_sitk space) (inr grid);
            Ev (get_resampled_stack target grid) (inr recon0);
            Ev (TikhonovSolver kw) (inr SRR0) ] `sublist_of` tr
    end /\
    tk_stacks kw = stacks /\
    tk_reconstruction kw = recon0.

(** What is shown: the stacks written, newest first, followed by the
    input stacks; with the comparison when [provide_comparison] is set,
    plainly when only [verbose] is set, not at all otherwise. *)
Definition shows_results (a : Args) (tr : trace) : Prop :=
  exists stacks,
    omap yields_stacks tr = [stacks] /\
    shown tr =
      let all := rev (writes tr).*1 ++ stacks in
      if truthy (provide_comparison a)
      then [ (all, Some (provide_comparison a),
              Some (os_path_join (dir_output a) "comparison")) ]
      else if truthy (verbose a) then [ (all, None, None) ]
      else [].

(** The refinement solver is run, its statistics printed, and its
    reconstruction, renamed to the solver's setting-specific filename, is
    the last stack written to the output directory. *)
Definition refined_written (a : Args) (f : flavor) (tr : trace) : Prop :=
  exists SRR recon name,
    match f with
    | ADMM =>
        exists kw,
          [ Ev (ADMMSolver kw) (inr SRR);
            Ev (run_reconstruction SRR) (inr tt);
            Ev (print_statistics SRR) (inr tt);
            Ev (get_reconstruction SRR) (inr recon);
            Ev (get_setting_specific_filename SRR) (inr name);
            Ev (set_filename recon name) (inr tt);
            Ev (write recon (dir_output a)) (inr tt) ] `sublist_of` tr
    | PrimalDual alg =>
        exists kw,
          [ Ev (PrimalDualSolver kw) (inr SRR);
            Ev (run_reconstruction SRR) (inr tt);
            Ev (print_statistics SRR) (inr tt);
            Ev (get_reconstruction SRR) (inr recon);
            Ev (get_setting_specific_filename SRR) (inr name);
            Ev (set_filename recon name) (inr tt);
            Ev (write recon (dir_output a)) (inr tt) ] `sublist_of` tr /\
          pd_alg kw = alg /\
          pd_reg_type kw = reg_type a
    end /\
    last (writes tr) = Some (recon, dir_output a).

(** More command lines: the target index one past the last of three
    stacks, and the last stack, on a given grid, by a negative index. *)
Definition with_target (i : Z) (a : Args) : Args := {|
  dir_input := dir_input a;
  filenames := filenames a;
  image_selection := image_selection a;
  dir_output := dir_output a;
  suffix_mask := suffix_mask a;
  target_stack_index := i;
  extra_frame_target := extra_frame_target a;
  isotropic_resolution := isotropic_resolution a;
  reconstruction_space := reconstruction_space a;
  minimizer := minimizer a;
  iter_max := iter_max a;
  reg_type := reg_type a;
  data_loss := data_loss a;
  data_loss_scale := data_loss_scale a;
  alpha := alpha a;
  rho := rho a;
  tv_solver := tv_solver a;
  pd_alg_type := pd_alg_type a;
  iterations := iterations a;
  provide_comparison := provide_comparison a;
  log_script_execution := log_script_execution a;
  verbose := verbose a
|}.

Definition fourth_stack : Args := with_target 3 tk1_only.

Definition last_stack : Args := with_target (-1) huber_pd.

(** ** Statistics and filenames *)

(** The solver [compute_statistics()] is called on. *)
Definition computes (e : event) : option solver :=
  match e with
  | Ev c _ => match c with compute_statistics x => Some x | _ => None end
  end.

(** The solver [print_statistics()] is called on. *)
Definition prints (e : event) : option solver :=
  match e with
  | Ev c _ => match c with print_statistics x => Some x | _ => None end
  end.

(** The events of a run from the first ADMM / Primal-Dual constructor
    call on: the refinement.  What comes before is the Tikhonov pass. *)
Fixpoint from_refinement (tr : trace) : trace :=
  match tr with
  | [] => []
  | e :: rest =>
      match constructs e with
      | Some _ => e :: rest
      | None => from_refinement rest
      end
  end.

(** The statistics of the Tikhonov solver are computed, once, right after
    its run and before they are printed; from the refinement constructor
    on [compute_statistics()] is not called at all, and
    [print_statistics()] is called once, on the solver that constructor
    returned. *)
Definition statistics_only_for_tikhonov (a : Args) (tr : trace) : Prop :=
  exists SRR0,
    omap computes tr = [SRR0] /\
    omap computes (from_refinement tr) = [] /\
    (exists kw,
       [ Ev (TikhonovSolver kw) (inr SRR0);
         Ev (run_reconstruction SRR0) (inr tt);
         Ev (compute_statistics SRR0) (inr tt);
         Ev (print_statistics SRR0) (inr tt) ] `sublist_of` tr) /\
    (forall f,
       dispatch_spec a = Some f ->
       exists e SRR rest,
         from_refinement tr = e :: rest /\
         constructed e = Some (f, SRR) /\
         omap prints rest = [SRR] /\
         omap prints tr = [SRR0; SRR]) /\
    (dispatch_spec a = None ->
     from_refinement tr = [] /\ omap prints tr = [SRR0]).



End Script.

(* ===================================================================== *)
(** * Part II: [src/py/preprocessing/N4BiasFieldCorrection.py]           *)
(* ===================================================================== *)

Module N4.

(** ** Images, stacks and the heap *)

(** The grid of a [sitk.Image]: size, spacing, origin, direction. *)
Record geometry := {
  size : list nat;
  spacing : list float;
  origin : list float;
  direction : list float
}.

Record image := {
  grid : geometry;
  pixel_id : Z;
  pixels : list float
}.

(** [sitk.sitkFloat64]. *)
Definition sitkFloat64 : Z := 9.

(** A [Stack] object: its image, its mask if it has one, its filename. *)
Record Stack := {
  sitk : image;
  sitk_mask : option image;
  filename : string
}.

(** Python objects live in a heap and are passed by reference. *)
Abbreviation ref := nat.

(** The fields of an [N4BiasFieldCorrection] object (lines 32-39). *)
Record N4BiasFieldCorrection := {
  _stack : option ref;
  _use_mask : bool;
  _use_verbose : bool;
  _stack_corrected : option ref;
  _dir_tmp : string
}.

(** ** State *)

(** What the method does to the world outside, in order. *)
Inductive effect :=
  | Cleared (directory : string)
  | Wrote (img : image) (path : string)
  | Executed (cmd : string)
  | Read (path : string)
  | Resampled (img reference : image)
  | Allocated (at_ref : ref).

Record state := {
  files : gmap string image;
  heap : gmap ref Stack;
  log : list effect
}.

Inductive exn :=
  | AttributeError        (* an attribute of [None] *)
  | TypeError             (* [None] where SimpleITK wants an image *)
  | RuntimeError (path : string).   (* SimpleITK cannot read the file *)

(** State and exceptions; the state survives an exception. *)
Definition M (A : Type) : Type := state -> (exn + A) * state.

Definition ret {A} (a : A) : M A := fun st => (inr a, st).

Definition raise {A} (e : exn) : M A := fun st => (inl e, st).

Definition bind {A B} (m : M A) (f : A -> M B) : M B :=
  fun st =>
    match m st with
    | (inr a, st') => f a st'
    | (inl e, st') => (inl e, st')
    end.

#[global] Instance M_ret : MRet M := @ret.
#[global] Instance M_bind : MBind M := fun A B f m => bind m f.

Definition emit (e : effect) : M unit :=
  fun st =>
    (inr tt, {| files := files st; heap := heap st; log := log st ++ [e] |}).

Definition update_files (f : gmap string image -> gmap string image)
    : M unit :=
  fun st =>
    (inr tt, {| files := f (files st); heap := heap st; log := log st |}).

Definition lookup_file (path : string) : M (option image) :=
  fun st => (inr (files st !! path), st).

(** Reading [self._stack.<attribute>]: [self._stack] is [None] until a
    stack is set. *)
Definition the_stack (self : N4BiasFieldCorrection) : M Stack :=
  fun st =>
    match _stack self with
    | None => (inl AttributeError, st)
    | Some l =>
        match heap st !! l with
        | Some s => (inr s, st)
        | None => (inl AttributeError, st)
        end
    end.

Section Collaborators.

(** [definitions.dir_build_cpp]. *)
Variable dir_build_cpp : string.

(** [ph.clear_directory]: what is left of the files after the directory
    has been emptied. *)
Variable cleared : string -> gmap string image -> gmap string image.

(** The out-of-process filter started by [ph.execute_command]: what it
    does to the files, given its command line. *)
Variable filter : string -> gmap string image -> gmap string image.

(** The pixel values SimpleITK's nearest-neighbour resampling of an image
    takes on a grid, under the identity transform. *)
Variable resampled_pixels : image -> geometry -> list float.

Definition clear_directory (directory : string) : M unit :=
  update_files (cleared directory) ;; emit (Cleared directory).

(** [sitk.WriteImage(image, path)]. *)
Definition WriteImage (img : option image) (path : string) : M unit :=
  match img with
  | None => raise TypeError
  | Some i => update_files (insert path i) ;; emit (Wrote i path)
  end.

Definition execute_command (cmd : string) : M unit :=
  update_files (filter cmd) ;; emit (Executed cmd).

(** [sitk.ReadImage(path, pixel_type)]: the stored image, its pixels cast
    to [pixel_type]. *)
Definition ReadImage (path : string) (pixel_type : Z) : M image :=
  found ← lookup_file path;
  match found with
  | None => raise (RuntimeError path)
  | Some i =>
      emit (Read path) ;;
      mret {| grid := grid i; pixel_id := pixel_type; pixels := pixels i |}
  end.

(** [sitk.Resample(image, reference, sitk.Euler3DTransform(),
    sitk.sitkNearestNeighbor, 0, pixel_type)]: the result lives on the
    grid of [reference]. *)
Definition Resample (img : option image) (reference : image)
    (pixel_type : Z) : M image :=
  match img with
  | None => raise TypeError
  | Some i =>
      emit (Resampled i reference) ;;
      mret {| grid := grid reference;
              pixel_id := pixel_type;
              pixels := resampled_pixels i (grid reference) |}
  end.

(** [image.GetPixelIDValue()]. *)
Definition GetPixelIDValue (img : option image) : M Z :=
  match img with
  | None => raise AttributeError
  | Some i => mret (pixel_id i)
  end.

(** Modelled from the spec: [Stack.from_sitk_image] is defined in
    [base/Stack.py], which is not among the sources.  The specification
    describes a Stack as an image, an optional mask and a filename, and
    stacks as immutable values from which operations derive new ones: the
    call allocates a new Stack object holding the three arguments. *)
Definition Stack_from_sitk_image (img : image) (name : string)
    (mask : image) : M ref :=
  fun st =>
    let l := fresh (dom (heap st)) in
    (inr l,
     {| files := files st;
        heap := <[ l := {| sitk := img;
                           sitk_mask := Some mask;
                           filename := name |} ]> (heap st);
        log := log st ++ [Allocated l] |}).

(** ** The class *)

(** [__init__] (lines 30-39), [dir_tmp] being the directory
    [ph.create_directory] returned. *)
Definition init (stack : option ref) (dir_tmp : string)
    (use_mask use_verbose : bool) : N4BiasFieldCorrection :=
  {| _stack := stack;
     _use_mask := use_mask;
     _use_verbose := use_verbose;
     _stack_corrected := None;
     _dir_tmp := dir_tmp |}.

Definition set_stack (self : N4BiasFieldCorrection) (stack : ref)
    : N4BiasFieldCorrection :=
  {| _stack := Some stack;
     _use_mask := _use_mask self;
     _use_verbose := _use_verbose self;
     _stack_corrected := _stack_corrected self;
     _dir_tmp := _dir_tmp self |}.

Definition get_bias_field_corrected_stack (self : N4BiasFieldCorrection)
    : option ref :=
  _stack_corrected self.

(** The command line built on lines 62-67. *)
Definition command (self : N4BiasFieldCorrection) (filename_out : string)
    : string :=
  let cmd := dir_build_cpp +:+ "/bin/runN4BiasFieldCorrectionImageFilter " in
  let cmd := cmd +:+ ("--f " +:+ _dir_tmp self +:+ filename_out +:+ " ") in
  let cmd :=
    if _use_mask self
    then cmd +:+ ("--fmask " +:+ _dir_tmp self +:+ filename_out +:+ "_mask ")
    else cmd in
  let cmd := cmd +:+ ("--tout " +:+ _dir_tmp self +:+ " ") in
  cmd +:+ ("--m " +:+ filename_out).

(** [run_bias_field_correction] (lines 49-78); returns [self] with
    [_stack_corrected] assigned. *)
Definition run_bias_field_correction (self : N4BiasFieldCorrection)
    : M N4BiasFieldCorrection :=
  (* line 52 *)
  clear_directory (_dir_tmp self) ;;
  (* line 54 *)
  stack ← the_stack self;
  let filename_out := filename stack in
  (* line 56 *)
  stack ← the_stack self;
  WriteImage (Some (sitk stack))
    (_dir_tmp self +:+ filename_out +:+ ".nii.gz") ;;
  (* lines 58-59 *)
  (if _use_mask self
   then
     stack ← the_stack self;
     WriteImage (sitk_mask stack)
       (_dir_tmp self +:+ filename_out +:+ "_mask.nii.gz")
   else mret tt) ;;
  (* lines 62-69 *)
  execute_command (command self filename_out) ;;
  (* line 71 *)
  stack_corrected_sitk ←
    ReadImage (_dir_tmp self +:+ filename_out +:+ "_corrected.nii.gz")
      sitkFloat64;
  (* line 74 *)
  stack ← the_stack self;
  pixel_type ← GetPixelIDValue (sitk_mask stack);
  stack_corrected_sitk_mask ←
    Resample (sitk_mask stack) stack_corrected_sitk pixel_type;
  (* line 78 *)
  stack ← the_stack self;
  corrected ←
    Stack_from_sitk_image stack_corrected_sitk (filename stack)
      stack_corrected_sitk_mask;
  mret {| _stack := _stack self;
          _use_mask := _use_mask self;
          _use_verbose := _use_verbose self;
          _stack_corrected := Some corrected;
          _dir_tmp := _dir_tmp self |}.

(** ** What one call exchanges with the filter *)

Definition input_path (self : N4BiasFieldCorrection) (stk : Stack) : string :=
  _dir_tmp self +:+ filename stk +:+ ".nii.gz".

Definition mask_path (self : N4BiasFieldCorrection) (stk : Stack) : string :=
  _dir_tmp self +:+ filename stk +:+ "_mask.nii.gz".

Definition output_path (self : N4BiasFieldCorrection) (stk : Stack)
    : string :=
  _dir_tmp self +:+ filename stk +:+ "_corrected.nii.gz".

(** The files the filter is started on. *)
Definition handed_over (self : N4BiasFieldCorrection) (stk : Stack)
    (mask : image) (fs : gmap string image) : gmap string image :=
  let fs :=
    <[ input_path self stk := sitk stk ]> (cleared (_dir_tmp self) fs) in
  if _use_mask self then <[ mask_path self stk := mask ]> fs else fs.

(** The image read back, the mask put on its grid, and the Stack made of
    the two. *)
Definition as_float64 (out : image) : image :=
  {| grid := grid out; pixel_id := sitkFloat64; pixels := pixels out |}.

Definition mask_on (mask reference : image) : image :=
  {| grid := grid reference;
     pixel_id := pixel_id mask;
     pixels := resampled_pixels mask (grid reference) |}.

Definition corrected_stack (stk : Stack) (mask out : image) : Stack :=
  {| sitk := as_float64 out;
     sitk_mask := Some (mask_on mask (as_float64 out));
     filename := filename stk |}.

(** The effects of a call that succeeds, in order. *)
Definition effects (self : N4BiasFieldCorrection) (stk : Stack)
    (mask out : image) (corrected : ref) : list effect :=
  [ Cleared (_dir_tmp self); Wrote (sitk stk) (input_path self stk) ]
  ++ (if _use_mask self then [ Wrote mask (mask_path self stk) ] else [])
  ++ [ Executed (command self (filename stk));
       Read (output_path self stk);
       Resampled mask (as_float64 out);
       Allocated corrected ].

End Collaborators.

(** ** The invariant of a Stack *)

(** A mask, if present, lives on the grid of the image. *)
Definition mask_matches (s : Stack) : Prop :=
  match sitk_mask s with
  | Some m => grid m = grid (sitk s)
  | None => True
  end.

(** ** A concrete run *)

Definition unit_grid (n : nat) : geometry :=
  {| size := [n; n; n];
     spacing := [1%Q; 1%Q; 1%Q];
     origin := [0%Q; 0%Q; 0%Q];
     direction := [1%Q; 0%Q; 0%Q; 0%Q; 1%Q; 0%Q; 0%Q; 0%Q; 1%Q] |}.

Definition brain_mask : image :=
  {| grid := unit_grid 2; pixel_id := 1; pixels := [ 1%Q ] |}.

Definition brain : Stack :=
  {| sitk := {| grid := unit_grid 2; pixel_id := 8; pixels := [ 3%Q ] |};
     sitk_mask := Some brain_mask;
     filename := "brain" |}.

(** A filter that answers every run with a corrected image on a grid of
    its own. *)
Definition filter_output : image :=
  {| grid := unit_grid 3; pixel_id := 8; pixels := [ 2%Q ] |}.

Definition some_filter (cmd : string) (fs : gmap string image)
    : gmap string image :=
  <[ "/tmp/N4/brain_corrected.nii.gz" := filter_output ]> fs.

Definition wipe (directory : string) (fs : gmap string image)
    : gmap string image := ∅.

Definition nearest (img : image) (g : geometry) : list float := pixels img.

Definition corrector : N4BiasFieldCorrection :=
  init (Some 0%nat) "/tmp/N4/" true false.

Definition before : state :=
  {| files := ∅; heap := {[ 0%nat := brain ]}; log := [] |}.

(** The object a call returned, or [self] when it raised. *)
Definition after_of (r : (exn + N4BiasFieldCorrection) * state)
    (self : N4BiasFieldCorrection) : N4BiasFieldCorrection :=
  match r.1 with
  | inr self' => self'
  | inl _ => self
  end.

(** ** More concrete data *)

(** An object as [__init__] leaves it when no stack is passed. *)
Definition unset : N4BiasFieldCorrection :=
  init None "/tmp/N4/" true false.

(** A filter that writes nothing. *)
Definition idle_filter (cmd : string) (fs : gmap string image)
    : gmap string image := fs.

(** [clear_directory] for a file system that holds nothing outside the
    directory: no file is left. *)
Definition stale : state :=
  {| files := {[ "/tmp/N4/brain_corrected.nii.gz" := filter_output ]};
     heap := {[ 0%nat := brain ]};
     log := [] |}.

(** A stack without a mask. *)
Definition maskless : Stack :=
  {| sitk := sitk brain; sitk_mask := None; filename := "brain" |}.

Definition before_maskless : state :=
  {| files := ∅; heap := {[ 0%nat := maskless ]}; log := [] |}.

End N4.

(* ===================================================================== *)
(** * Part I, theory: every run of the script                            *)
(* ===================================================================== *)

Section ScriptTheory.

Import Script.

Lemma wp_sound {A} (p : Prog A) :
  forall h post w, wp p h post -> post (run w p h).1 (run w p h).2.
Proof.
  induction p as [a | e | X c k IH]; intros h post w Hwp; simpl in *.
  - exact Hwp.
  - exact Hwp.
  - destruct Hwp as [Hfail Hok].
    destruct (w X h c) as [e | x]; simpl.
    + apply Hfail.
    + apply IH, Hok.
Qed.

Lemma wp_bind {A B} (p : Prog A) (f : A -> Prog B) :
  forall h post,
    wp p h (fun h' r =>
              match r with
              | inl e => post h' (inl e)
              | inr a => wp (f a) h' post
              end) ->
    wp (bind p f) h post.
Proof.
  induction p as [a | e | X c k IH]; intros h post Hwp; simpl in *.
  - exact Hwp.
  - exact Hwp.
  - destruct Hwp as [Hfail Hok]. split; [exact Hfail |].
    intros x. apply IH, Hok.
Qed.

Lemma wp_mono {A} (p : Prog A) :
  forall h (post post' : trace -> exn + A -> Prop),
    (forall h' r, post h' r -> post' h' r) ->
    wp p h post -> wp p h post'.
Proof.
  induction p as [a | e | X c k IH]; intros h post post' Himp Hwp;
    simpl in *; auto.
  destruct Hwp as [Hfail Hok]. split; [auto |].
  intros x. eapply IH; eauto.
Qed.

(** The loop of lines 139-140 copies [stacks]. *)
Lemma append_loop_from (stacks done rest recons : list stack) :
  stacks = done ++ rest ->
  append_loop stacks (seq (length done) (length rest)) recons
  = Ret (recons ++ rest).
Proof.
  revert done recons.
  induction rest as [| s rest IH]; intros done recons Heq; simpl.
  - by rewrite app_nil_r.
  - unfold getitem, py_index.
    replace (0 <=? Z.of_nat (length done))%Z with true
      by (symmetry; apply Z.leb_le; lia).
    rewrite Nat2Z.id.
    replace (stacks !! length done) with (Some s)
      by (subst stacks; symmetry; apply list_lookup_middle; done).
    simpl.
    specialize (IH (done ++ [s]) (recons ++ [s])).
    rewrite length_app in IH. simpl in IH.
    replace (length done + 1)%nat with (S (length done)) in IH by lia.
    rewrite IH; [by rewrite <- app_assoc |].
    by rewrite <- app_assoc.
Qed.

Lemma append_loop_copies (stacks : list stack) :
  append_loop stacks (seq 0 (length stacks)) [] = Ret stacks.
Proof. exact (append_loop_from stacks [] stacks [] eq_refl). Qed.

(** The dispatch of the specification, computed the way lines 143 and 163
    test it. *)
Lemma dispatch_spec_eqb (a : Args) :
  dispatch_spec a =
    if String.eqb (reg_type a) "TV" && String.eqb (tv_solver a) "ADMM"
    then Some ADMM
    else if (String.eqb (reg_type a) "TV"
             || String.eqb (reg_type a) "huber")
            && String.eqb (tv_solver a) "PD"
    then Some (PrimalDual (pd_alg_type a))
    else None.
Proof.
  unfold dispatch_spec.
  destruct (String.eqb_spec (reg_type a) "TV") as [-> | Hr1];
    destruct (String.eqb_spec (tv_solver a) "ADMM") as [-> | Ht1];
    destruct (String.eqb_spec (reg_type a) "huber") as [Hr2 | Hr2];
    destruct (String.eqb_spec (tv_solver a) "PD") as [Ht2 | Ht2];
    try discriminate; simpl;
    repeat case_decide; try reflexivity; exfalso; intuition congruence.
Qed.

Lemma warm_from_spec (tr : trace) :
  forall before0,
    warm_from before0 tr ->
    forall before e after f init,
      tr = before ++ e :: after ->
      constructs e = Some (f, init) ->
      seeded (before0 ++ before) init.
Proof.
  induction tr as [| e0 rest IH]; intros before0 Hw before e after f init Heq Hc.
  - by destruct before.
  - destruct Hw as [Hhere Hrest].
    destruct before as [| b before]; simplify_eq/=.
    + rewrite app_nil_r. by rewrite Hc in Hhere.
    + replace (before0 ++ b :: before) with ((before0 ++ [b]) ++ before)
        by (by rewrite <- app_assoc).
      eapply IH; eauto.
Qed.

Lemma warm_from_started (tr : trace) : warm_from [] tr -> warm_started tr.
Proof.
  intros Hw before e after f init Heq Hc.
  exact (warm_from_spec tr [] Hw before e after f init Heq Hc).
Qed.

(** *** Symbolic execution of the script *)

#[local] Arguments at_leaf : simpl never.
#[local] Arguments py_index : simpl never.
#[local] Arguments truthy : simpl never.
#[local] Arguments os_path_join : simpl never.
#[local] Arguments dispatch_spec : simpl never.

Ltac case_on b :=
  first
    [ match b with context [String.eqb ?x ?y] =>
        destruct (String.eqb x y) eqn:? end
    | match b with context [truthy ?z] => destruct (truthy z) eqn:? end
    | destruct b eqn:? ].

Ltac wp_head p :=
  lazymatch p with
  | mbind _ ?q => wp_head q
  | bind ?q _ => wp_head q
  | Prog_bind _ _ _ ?q => wp_head q
  | append_loop ?s (seq 0 (length ?s)) [] => rewrite (append_loop_copies s)
  | if ?b then _ else _ => case_on b
  | match ?o with Some _ => _ | None => _ end => destruct o eqn:?
  end.

Ltac wp_step :=
  lazymatch goal with
  | |- at_leaf _ => fail
  | |- _ /\ _ => split
  | |- forall _ : unit, _ => intros []
  | |- forall _, _ => intro
  | |- wp ?p _ _ => wp_head p
  end.

Ltac wp_run :=
  unfold main, make_reader, initial_reconstruction, tikhonov_pass,
    refinement, display, raise_Exceptions_IOError, via, getitem;
  simpl;
  repeat (wp_step; simpl).

(** Every property [P] of the final trace and result that holds on all
    paths of the script holds of every run. *)
Lemma every_run (P : trace -> exn + unit -> Prop) (a : Args) :
  wp (main a) [] (fun tr r => at_leaf (P tr r)) ->
  forall w, P (exec w (main a)).1 (exec w (main a)).2.
Proof. intros Hwp w. exact (wp_sound (main a) [] _ w Hwp). Qed.

Ltac sub_search :=
  solve [ apply sublist_nil_l
        | apply sublist_skip; sub_search
        | apply sublist_cons; sub_search ].

(** C3: the refinement solver is chosen by a closed dispatch on
    [reg_type], [tv_solver] and [pd_alg_type]: the ADMM / Primal-Dual
    constructor calls of a run are never more than the one solver the
    dispatch selects, and a run that ends normally has constructed and run
    exactly that solver (none when nothing is selected). *)
Theorem dispatch_is_closed (w : world) (a : Args) :
  let tr := (exec w (main a)).1 in
  let res := (exec w (main a)).2 in
  (tv_solvers tr).*1 `prefix_of` option_list (dispatch_spec a) /\
  (res = inr tt ->
     (tv_solvers tr).*1 = option_list (dispatch_spec a) /\
     refinement_runs tr = option_list (dispatch_spec a)).
Proof.
  revert w. apply (every_run (fun tr res =>
    (tv_solvers tr).*1 `prefix_of` option_list (dispatch_spec a) /\
    (res = inr tt ->
       (tv_solvers tr).*1 = option_list (dispatch_spec a) /\
       refinement_runs tr = option_list (dispatch_spec a)))).
  wp_run.
  all: unfold at_leaf; rewrite dispatch_spec_eqb;
    repeat match goal with H : String.eqb _ _ = _ |- _ => rewrite H end;
    cbn; (split; [ first [ apply prefix_nil | reflexivity ] | ]);
    intros Hres; try discriminate Hres.
  all: split; [ reflexivity | ]; try reflexivity.
  all: rewrite decide_True by reflexivity; reflexivity.
Qed.

Lemma dispatch_is_closed_witness :
  (exec three_stacks (main huber_pd)).2 = inr tt /\
  refinement_runs (exec three_stacks (main huber_pd)).1
  = [PrimalDual "ALG2"].
Proof.
  split; [ reflexivity | ].
  destruct (dispatch_is_closed three_stacks huber_pd) as [_ H].
  destruct (H eq_refl) as [_ ->]. reflexivity.
Defined.

Ltac use_conditions H :=
  rewrite dispatch_spec_eqb in H;
  repeat match goal with E : String.eqb _ _ = _ |- _ => rewrite E in H end;
  cbn in H.

Ltac warm_leaf :=
  apply warm_from_started; cbn [warm_from app constructs];
  repeat match goal with |- _ /\ _ => split end;
  first [ exact I | do 3 eexists; sub_search ].

(** On every path: the constructor calls are warm-started, and a normal
    end with a selected solver has constructed that solver once. *)
Lemma warm_start_on_all_paths (w : world) (a : Args) :
  let tr := (exec w (main a)).1 in
  let res := (exec w (main a)).2 in
  warm_started tr /\
  (res = inr tt ->
   forall f, dispatch_spec a = Some f ->
     exists init, tv_solvers tr = [(f, init)]).
Proof.
  revert w. apply (every_run (fun tr res =>
    warm_started tr /\
    (res = inr tt ->
     forall f, dispatch_spec a = Some f ->
       exists init, tv_solvers tr = [(f, init)]))).
  wp_run.
  all: unfold at_leaf; split; [ warm_leaf | ].
  all: intros Hres f Hd; try discriminate Hres.
  all: use_conditions Hd; try discriminate Hd.
  all: inversion Hd; subst; eexists; reflexivity.
Qed.

Lemma tv_solvers_split (tr : trace) (x : flavor * stack)
    (rest : list (flavor * stack)) :
  tv_solvers tr = x :: rest ->
  exists before e after, tr = before ++ e :: after /\ constructs e = Some x.
Proof.
  unfold tv_solvers.
  induction tr as [| e0 tr IH]; intros Heq; [ discriminate Heq | ].
  cbn in Heq. destruct (constructs e0) as [y |] eqn:Hc.
  - injection Heq as -> _. by exists [], e0, tr.
  - destruct (IH Heq) as (before & e & after & -> & He).
    by exists (e0 :: before), e, after.
Qed.

(** C1, as amended: every ADMM or Primal-Dual solver the script constructs
    is handed, as its initial estimate, a [Stack.from_stack] copy of what
    [SRR0.get_reconstruction()] returned after the Tikhonov run completed;
    and when the dispatch selects a solver, a run that ends normally has
    constructed exactly that one solver, seeded in this way. *)
Theorem refinement_is_warm_started (w : world) (a : Args) :
  let tr := (exec w (main a)).1 in
  let res := (exec w (main a)).2 in
  warm_started tr /\
  (res = inr tt ->
   forall f, dispatch_spec a = Some f ->
     seeds_a_refinement tr /\
     exists init, tv_solvers tr = [(f, init)]).
Proof.
  destruct (warm_start_on_all_paths w a) as [Hwarm Hone].
  split; [ exact Hwarm | ].
  intros Hres f Hd. destruct (Hone Hres f Hd) as [init Hinit].
  split; [ | by exists init ].
  destruct (tv_solvers_split _ _ _ Hinit) as (before & e & after & Heq & Hc).
  exists before, e, after, f, init. eauto.
Qed.

Lemma refinement_is_warm_started_witness :
  (exec three_stacks (main tv_admm)).2 = inr tt /\
  dispatch_spec tv_admm = Some ADMM /\
  seeds_a_refinement (exec three_stacks (main tv_admm)).1.
Proof.
  split; [ reflexivity | ]. split; [ reflexivity | ].
  destruct (refinement_is_warm_started three_stacks tv_admm) as [_ H].
  exact (proj1 (H eq_refl ADMM eq_refl)).
Defined.

Lemma no_solver_not_seeded (tr : trace) :
  tv_solvers tr = [] -> ~ seeds_a_refinement tr.
Proof.
  intros Hnone (before & e & after & f & init & -> & Hc & _).
  unfold tv_solvers in Hnone.
  rewrite omap_app in Hnone. simpl in Hnone. rewrite Hc in Hnone.
  by apply app_eq_nil in Hnone as [_ ?].
Qed.

(** C1, as stated, fails: with [--reg-type huber --tv-solver ADMM] Huber
    regularisation is requested and the run ends normally, yet no ADMM or
    Primal-Dual solver is handed the Tikhonov reconstruction. *)
Lemma huber_admm_seeds_nothing :
  reg_type huber_admm = "huber" /\
  (exec three_stacks (main huber_admm)).2 = inr tt /\
  ~ seeds_a_refinement (exec three_stacks (main huber_admm)).1.
Proof.
  split; [ reflexivity | ]. split; [ reflexivity | ].
  apply no_solver_not_seeded. reflexivity.
Qed.

(** C9: with [--reg-type huber --tv-solver ADMM] no ADMM or Primal-Dual
    solver is constructed or run; a run that ends normally has built and
    run the Tikhonov solver only, obtained one reconstruction, from it,
    and written that one alone. *)
Theorem huber_with_admm_falls_through (w : world) (a : Args) :
  reg_type a = "huber" ->
  tv_solver a = "ADMM" ->
  let tr := (exec w (main a)).1 in
  let res := (exec w (main a)).2 in
  tv_solvers tr = [] /\
  refinement_runs tr = [] /\
  (res = inr tt ->
   exists kw SRR0 recon,
     List.filter is_solver_call tr
     = [ Ev (TikhonovSolver kw) (inr SRR0);
         Ev (run_reconstruction SRR0) (inr tt) ] /\
     reconstructions tr = [(SRR0, recon)] /\
     writes tr = [(recon, dir_output a)]).
Proof.
  intros Hreg Htv. revert w. apply (every_run (fun tr res =>
    tv_solvers tr = [] /\
    refinement_runs tr = [] /\
    (res = inr tt ->
     exists kw SRR0 recon,
       List.filter is_solver_call tr
       = [ Ev (TikhonovSolver kw) (inr SRR0);
           Ev (run_reconstruction SRR0) (inr tt) ] /\
       reconstructions tr = [(SRR0, recon)] /\
       writes tr = [(recon, dir_output a)]))).
  unfold main, refinement. rewrite Hreg, Htv.
  wp_run.
  all: unfold at_leaf; split; [ reflexivity | ]; split; [ reflexivity | ].
  all: intros Hres; try discriminate Hres.
  all: do 3 eexists; repeat split; reflexivity.
Qed.

Lemma huber_with_admm_falls_through_witness :
  (exec three_stacks (main huber_admm)).2 = inr tt /\
  writes (exec three_stacks (main huber_admm)).1
  = [(StackRef 1007, "results/")].
Proof.
  split; [ reflexivity | ].
  destruct (huber_with_admm_falls_through three_stacks huber_admm
              eq_refl eq_refl) as (_ & _ & H).
  destruct (H eq_refl) as (kw & SRR0 & recon & _ & Hrec & Hw).
  injection Hrec as _ <-. exact Hw.
Defined.

(** C10: the Tikhonov solver is only ever constructed with
    [reg_type="TK1"], whatever [--reg-type] says; in every run that ends
    normally, and in every run that gets as far as constructing an ADMM or
    Primal-Dual solver, the Tikhonov solver has been run and its
    reconstruction, renamed to the solver's setting-specific filename, is
    the first stack written to the output directory; a run that ends
    normally writes one more stack exactly when the dispatch selects a
    refinement. *)
Theorem tikhonov_first_and_written (w : world) (a : Args) :
  let tr := (exec w (main a)).1 in
  let res := (exec w (main a)).2 in
  omap tikhonov_reg_type tr `prefix_of` ["TK1"] /\
  (res = inr tt \/ tv_solvers tr <> [] -> tikhonov_written a tr) /\
  (res = inr tt ->
   omap tikhonov_reg_type tr = ["TK1"] /\
   length (writes tr) = S (length (option_list (dispatch_spec a)))).
Proof.
  revert w. apply (every_run (fun tr res =>
    omap tikhonov_reg_type tr `prefix_of` ["TK1"] /\
    (res = inr tt \/ tv_solvers tr <> [] -> tikhonov_written a tr) /\
    (res = inr tt ->
     omap tikhonov_reg_type tr = ["TK1"] /\
     length (writes tr) = S (length (option_list (dispatch_spec a)))))).
  wp_run.
  all: unfold at_leaf;
    (split; [ first [ apply prefix_nil | reflexivity ] | split ]).
  all: lazymatch goal with
       | |- _ \/ _ -> _ =>
           intros H;
           first
             [ solve [ destruct H as [Hres | Hsome];
                       [ discriminate Hres
                       | exfalso; apply Hsome; reflexivity ] ]
             | clear H; do 4 eexists;
               (split; [ | split; [ sub_search | reflexivity ] ]);
               reflexivity ]
       | |- _ -> _ =>
           intros Hres; try discriminate Hres
       end.
  all: split; [ reflexivity | ].
  all: rewrite dispatch_spec_eqb;
    repeat match goal with H : String.eqb _ _ = _ |- _ => rewrite H end;
    reflexivity.
Qed.

Lemma tikhonov_first_and_written_witness :
  reg_type tv_pd = "TV" /\
  (exec three_stacks (main tv_pd)).2 = inr tt /\
  omap tikhonov_reg_type (exec three_stacks (main tv_pd)).1 = ["TK1"] /\
  length (writes (exec three_stacks (main tv_pd)).1) = 2%nat.
Proof.
  split; [ reflexivity | ]. split; [ reflexivity | ].
  destruct (tikhonov_first_and_written three_stacks tv_pd) as (_ & _ & H).
  exact (H eq_refl).
Defined.

Lemma py_index_nil {A} (i : Z) : py_index (@nil A) i = None.
Proof.
  unfold py_index.
  repeat match goal with |- context [if ?b then _ else _] => destruct b end;
    reflexivity.
Qed.

(** The input check never raises the input error it names: whenever both
    or neither of [--dir-input] and [--filenames] are given, the run ends
    with an exception that is not of the configuration class, before any
    reader or solver is called. *)
Lemma input_conflict_outcome (w : world) (a : Args) :
  input_conflict a = true ->
  let tr := (exec w (main a)).1 in
  let res := (exec w (main a)).2 in
  (res = inl (NameError "Exceptions") \/ exists x, res = inl (Raised x)) /\
  List.filter is_reader_call tr = [] /\
  List.filter is_solver_call tr = [].
Proof.
  intros Hc. revert w. apply (every_run (fun tr res =>
    (res = inl (NameError "Exceptions") \/ exists x, res = inl (Raised x)) /\
    List.filter is_reader_call tr = [] /\
    List.filter is_solver_call tr = [])).
  unfold input_conflict in Hc. unfold main, make_reader.
  destruct (filenames a), (dir_input a); try discriminate Hc.
  all: wp_run.
  all: unfold at_leaf; (split; [ | split; reflexivity ]); eauto.
Qed.

(** C2, the defect: with both [--dir-input] and [--filenames], and with
    neither, the script stops before any reader or solver is called, but
    the exception that stops it is [NameError] for the unbound global
    [Exceptions], not the input error the [raise] statement names. *)
Theorem input_conflict_raises_NameError :
  exec three_stacks (main both_inputs)
  = ([ Ev (print_arguments both_inputs) (inr tt);
       Ev write_performed_script_execution (inr tt);
       Ev (print_title "Read Data") (inr tt) ],
     inl (NameError "Exceptions")) /\
  exec three_stacks (main no_input)
  = ([ Ev (print_arguments no_input) (inr tt);
       Ev write_performed_script_execution (inr tt);
       Ev (print_title "Read Data") (inr tt) ],
     inl (NameError "Exceptions")) /\
  is_configuration_error (NameError "Exceptions") = false.
Proof. repeat split; reflexivity. Qed.

(** C5, as amended: once the data reader has returned an empty list of
    stacks the run fails before any solver is constructed or run; it fails
    with [IndexError] from [stacks[target_stack_index]], unless loading the
    [--reconstruction-space] file raised first; the exception is never of
    the configuration class. *)
Theorem no_stacks_is_an_IndexError (w : world) (a : Args) :
  let tr := (exec w (main a)).1 in
  let res := (exec w (main a)).2 in
  [] ∈ omap yields_stacks tr ->
  (res = inl IndexError \/ exists x, res = inl (Raised x)) /\
  (reconstruction_space a = None -> res = inl IndexError) /\
  (forall e, res = inl e -> is_configuration_error e = false) /\
  List.filter is_solver_call tr = [].
Proof.
  revert w. apply (every_run (fun tr res =>
    [] ∈ omap yields_stacks tr ->
    (res = inl IndexError \/ exists x, res = inl (Raised x)) /\
    (reconstruction_space a = None -> res = inl IndexError) /\
    (forall e, res = inl e -> is_configuration_error e = false) /\
    List.filter is_solver_call tr = [])).
  wp_run.
  all: unfold at_leaf; cbn [omap list_omap yields_stacks];
    intros Hin;
    first [ by apply elem_of_nil in Hin
          | apply list_elem_of_singleton in Hin; subst ].
  all: try match goal with
           | H : py_index [] _ = Some _ |- _ =>
               rewrite py_index_nil in H; discriminate H
           end.
  all: repeat split; eauto; try congruence.
  all: intros ? [= <-]; reflexivity.
Qed.

Lemma no_stacks_is_an_IndexError_witness :
  [] ∈ omap yields_stacks (exec no_stacks (main tk1_only)).1 /\
  (exec no_stacks (main tk1_only)).2 = inl IndexError.
Proof.
  assert (H : [] ∈ omap yields_stacks (exec no_stacks (main tk1_only)).1)
    by (apply list_elem_of_singleton; reflexivity).
  split; [ exact H | ].
  destruct (no_stacks_is_an_IndexError no_stacks tk1_only H)
    as (_ & Hnone & _).
  exact (Hnone eq_refl).
Defined.

(** C5, as stated, fails: the reader yields no stacks, and the run ends
    with [IndexError], which is not of the configuration class. *)
Lemma no_stacks_is_not_a_configuration_error :
  omap yields_stacks (exec no_stacks (main tk1_only)).1 = [[]] /\
  (exec no_stacks (main tk1_only)).2 = inl IndexError /\
  is_configuration_error IndexError = false.
Proof. repeat split; reflexivity. Qed.

(** *** Further properties of the script *)

Lemma py_index_mod {A} (l : list A) (i : Z) (x : A) :
  py_index l i = Some x ->
  (- Z.of_nat (length l) <= i < Z.of_nat (length l))%Z /\
  l !! Z.to_nat (i `mod` Z.of_nat (length l)) = Some x.
Proof.
  unfold py_index.
  destruct (0 <=? i)%Z eqn:Hpos.
  - apply Z.leb_le in Hpos. intros Hx.
    pose proof (lookup_lt_Some _ _ _ Hx) as Hlt.
    assert (i < Z.of_nat (length l))%Z by lia.
    rewrite Z.mod_small by lia. split; [ lia | exact Hx ].
  - apply Z.leb_gt in Hpos.
    destruct (- Z.of_nat (length l) <=? i)%Z eqn:Hlow; [ | discriminate ].
    apply Z.leb_le in Hlow. intros Hx.
    replace (i `mod` Z.of_nat (length l))%Z with (Z.of_nat (length l) + i)%Z.
    + split; [ lia | exact Hx ].
    + symmetry.
      rewrite <- (Z_mod_plus_full i 1 (Z.of_nat (length l))).
      rewrite Z.mod_small by lia. lia.
Qed.

Lemma py_index_out_of_range {A} (l : list A) (i : Z) :
  (i < - Z.of_nat (length l) \/ Z.of_nat (length l) <= i)%Z ->
  py_index l i = None.
Proof.
  intros Hout. unfold py_index.
  destruct (0 <=? i)%Z eqn:Hpos.
  - apply Z.leb_le in Hpos. apply lookup_ge_None. lia.
  - apply Z.leb_gt in Hpos.
    destruct (- Z.of_nat (length l) <=? i)%Z eqn:Hlow; [ | reflexivity ].
    apply Z.leb_le in Hlow. lia.
Qed.

(** X9: the loop that fills [recons] calls no collaborator, never raises
    [IndexError], and returns the stacks in the reader's order. *)
Theorem recons_loop_copies_the_stacks
    (w : world) (stacks : list stack) (h : trace) :
  run w (append_loop stacks (seq 0 (length stacks)) []) h = (h, inr stacks).
Proof. by rewrite append_loop_copies. Qed.

Ltac rewrite_inputs :=
  repeat match goal with
         | H : filenames _ = _ |- _ => rewrite H
         | H : dir_input _ = _ |- _ => rewrite H
         end.

Ltac four_ways_leaf :=
  unfold ends_in_one_of_four_ways;
  lazymatch goal with
  | |- (inr _ = _ /\ _) \/ _ => left; split; reflexivity
  | |- (inl (NameError _) = _ /\ _) \/ _ =>
      right; left; (split; [ reflexivity | split; [ reflexivity | ] ]);
      unfold input_conflict; rewrite_inputs; reflexivity
  | |- (inl IndexError = _ /\ _) \/ _ =>
      right; right; left;
      (split; [ reflexivity | split; [ reflexivity | split ] ]);
      [ unfold input_conflict; rewrite_inputs; reflexivity
      | eexists; split; [ reflexivity | eassumption ] ]
  | |- (inl (Raised _) = _ /\ _) \/ _ =>
      right; right; right; eexists;
      split; [ reflexivity | split; reflexivity ]
  end.

(** On every path: how the run ends, what the solvers are given, where
    stacks are written. *)
Lemma on_all_paths (w : world) (a : Args) :
  let tr := (exec w (main a)).1 in
  let res := (exec w (main a)).2 in
  ends_in_one_of_four_ways a tr res /\
  solvers_agree a tr /\
  Forall (fun p => p.2 = dir_output a) (writes tr) /\
  (length (writes tr) <= 2)%nat.
Proof.
  revert w. apply (every_run (fun tr res =>
    ends_in_one_of_four_ways a tr res /\
    solvers_agree a tr /\
    Forall (fun p => p.2 = dir_output a) (writes tr) /\
    (length (writes tr) <= 2)%nat)).
  wp_run.
  all: unfold at_leaf; split; [ four_ways_leaf | ].
  all: split;
    [ unfold solvers_agree; cbn;
      repeat first [ apply Forall_nil | apply Forall_cons
                   | split | reflexivity ]
    | ].
  all: split; [ cbn; repeat constructor | cbn; lia ].
Qed.

Ltac rewrite_truthy :=
  repeat match goal with H : truthy _ = _ |- _ => rewrite H end.

Ltac stats_leaf :=
  unfold statistics_only_for_tikhonov;
  eexists; split; [ reflexivity | ]; split; [ reflexivity | ];
  split; [ eexists; sub_search | ];
  split;
  [ intros f Hd; use_conditions Hd;
    first [ discriminate Hd
          | inversion Hd; subst; do 3 eexists;
            split; [ reflexivity | ];
            split; [ reflexivity | ];
            split; reflexivity ]
  | intros Hd; use_conditions Hd;
    first [ discriminate Hd | split; reflexivity ] ].

(** On every path that ends normally. *)
Lemma on_normal_paths (w : world) (a : Args) :
  let tr := (exec w (main a)).1 in
  let res := (exec w (main a)).2 in
  res = inr tt ->
  reads_once a tr /\
  starts_from_target a tr /\
  shows_results a tr /\
  (forall f, dispatch_spec a = Some f -> refined_written a f tr) /\
  length (List.filter is_compute_statistics tr) = 1%nat /\
  length (List.filter is_print_statistics tr)
  = S (length (option_list (dispatch_spec a))) /\
  statistics_only_for_tikhonov a tr.
Proof.
  revert w. apply (every_run (fun tr res =>
    res = inr tt ->
    reads_once a tr /\
    starts_from_target a tr /\
    shows_results a tr /\
    (forall f, dispatch_spec a = Some f -> refined_written a f tr) /\
    length (List.filter is_compute_statistics tr) = 1%nat /\
    length (List.filter is_print_statistics tr)
    = S (length (option_list (dispatch_spec a))) /\
    statistics_only_for_tikhonov a tr)).
  wp_run.
  all: unfold at_leaf; intros Hres; try discriminate Hres; clear Hres.
  all: split;
    [ unfold reads_once; do 3 eexists;
      split; [ reflexivity | ];
      split; [ reflexivity | ];
      split; [ sub_search | ];
      rewrite_inputs; reflexivity
    | ].
  all: split;
    [ unfold starts_from_target; do 5 eexists;
      split; [ reflexivity | ];
      split; [ apply py_index_mod; eassumption | ];
      match goal with
      | H : reconstruction_space _ = _ |- _ => rewrite H
      end;
      split; [ first [ sub_search | do 2 eexists; sub_search ] | ];
      split; reflexivity
    | ].
  all: split;
    [ unfold shows_results; eexists; split; [ reflexivity | ];
      rewrite_truthy; reflexivity
    | ].
  all: split; [ | split; [ reflexivity | split; [ | stats_leaf ] ] ].
  all: try (rewrite dispatch_spec_eqb;
            repeat match goal with
                   | H : String.eqb _ _ = _ |- _ => rewrite H
                   end;
            reflexivity).
  all: intros f Hd; use_conditions Hd; try discriminate Hd.
  all: inversion Hd; subst; clear Hd; unfold refined_written; do 3 eexists.
  all: split; [ | reflexivity ].
  all: eexists; first [ sub_search | split; [ sub_search | ] ].
  all: split; reflexivity.
Qed.

(** X10: a run ends in one of four ways: normally; with [NameError] at
    the input check, both or neither input option being given; with
    [IndexError], the target index being outside the stacks the reader
    returned; or with the exception of a collaborator call, the only call
    that failed and the last one made.  It never ends with the input
    error. *)
Theorem script_ends_in_one_of_four_ways (w : world) (a : Args) :
  ends_in_one_of_four_ways a (exec w (main a)).1 (exec w (main a)).2 /\
  forall msg, (exec w (main a)).2 <> inl (IOError msg).
Proof.
  destruct (on_all_paths w a) as [Hways _].
  split; [ exact Hways | ].
  intros msg Hio.
  destruct Hways as [[H _] | [[H _] | [[H _] | [e [H _]]]]];
    rewrite H in Hio; discriminate Hio.
Qed.

(** X11: every solver a run constructs, Tikhonov, ADMM or Primal-Dual, is
    given the very list of stacks the reader returned and the minimizer,
    [alpha], [iter_max] and data loss of the command line. *)
Theorem solvers_share_stacks_and_settings (w : world) (a : Args) :
  solvers_agree a (exec w (main a)).1.
Proof. exact (proj1 (proj2 (on_all_paths w a))). Qed.

(** X12: a run writes at most two stacks, and each of them to
    [dir_output]. *)
Theorem stacks_go_to_the_output_directory (w : world) (a : Args) :
  Forall (fun p => p.2 = dir_output a) (writes (exec w (main a)).1) /\
  (length (writes (exec w (main a)).1) <= 2)%nat.
Proof. exact (proj2 (proj2 (on_all_paths w a))). Qed.

(** X13: when the target index is outside the range [-n .. n-1] of the
    [n] stacks the reader returned, the run fails before any solver is
    constructed: with [IndexError], unless loading the
    [--reconstruction-space] file raised first. *)
Theorem index_out_of_range_is_an_IndexError
    (w : world) (a : Args) (stacks : list stack) :
  let tr := (exec w (main a)).1 in
  let res := (exec w (main a)).2 in
  stacks ∈ omap yields_stacks tr ->
  (target_stack_index a < - Z.of_nat (length stacks) \/
   Z.of_nat (length stacks) <= target_stack_index a)%Z ->
  (res = inl IndexError \/ exists x, res = inl (Raised x)) /\
  (reconstruction_space a = None -> res = inl IndexError) /\
  List.filter is_solver_call tr = [].
Proof.
  simpl. intros Hin Hout. apply py_index_out_of_range in Hout.
  revert w Hin. apply (every_run (fun tr res =>
    stacks ∈ omap yields_stacks tr ->
    (res = inl IndexError \/ exists x, res = inl (Raised x)) /\
    (reconstruction_space a = None -> res = inl IndexError) /\
    List.filter is_solver_call tr = [])).
  wp_run.
  all: unfold at_leaf; cbn [omap list_omap yields_stacks];
    intros Hin;
    first [ by apply elem_of_nil in Hin
          | apply list_elem_of_singleton in Hin; subst ].
  all: try match goal with
           | H : py_index ?l ?i = Some _, H' : py_index ?l ?i = None |- _ =>
               rewrite H' in H; discriminate H
           end.
  all: repeat split; eauto; try congruence.
Qed.

(** X14: a run that ends normally has constructed one reader, the
    directory reader (with the mask suffix and the image selection) for
    [--dir-input], the file reader (with the mask suffix only) for
    [--filenames], and has called [read_data()] and then [get_stacks()]
    on it, once. *)
Theorem one_reader_is_read_once (w : world) (a : Args) :
  (exec w (main a)).2 = inr tt ->
  reads_once a (exec w (main a)).1.
Proof. intros Hres. exact (proj1 (on_normal_paths w a Hres)). Qed.

(** X15: in a run that ends normally the target index lies in
    [-n .. n-1], the target is the stack at that index modulo [n], so that
    negative indices count from the end, and the Tikhonov solver is given
    all the stacks and, as its initial value, the target resampled:
    isotropically with the given resolution and frame, or onto the grid of
    the [--reconstruction-space] image loaded with
    [extract_slices=False]. *)
Theorem initial_value_comes_from_the_target (w : world) (a : Args) :
  (exec w (main a)).2 = inr tt ->
  starts_from_target a (exec w (main a)).1.
Proof.
  intros Hres. exact (proj1 (proj2 (on_normal_paths w a Hres))).
Qed.

(** X16: a run that ends normally calls [show_stacks] at most once: with
    the comparison directory [dir_output/comparison] when
    [provide_comparison] is set, without it when only [verbose] is set,
    not at all when both are 0.  What it shows is the stacks written,
    newest first, followed by the input stacks in the reader's order. *)
Theorem results_are_shown_newest_first (w : world) (a : Args) :
  (exec w (main a)).2 = inr tt ->
  shows_results a (exec w (main a)).1.
Proof.
  intros Hres. exact (proj1 (proj2 (proj2 (on_normal_paths w a Hres)))).
Qed.

(** X17: when the dispatch selects a refinement, a run that ends normally
    has run the refinement solver, printed its statistics, renamed its
    reconstruction to its setting-specific filename and written it to
    [dir_output] as the last stack written; a Primal-Dual solver has been
    given the command line's [reg_type]. *)
Theorem refined_result_is_written_last
    (w : world) (a : Args) (f : flavor) :
  (exec w (main a)).2 = inr tt ->
  dispatch_spec a = Some f ->
  refined_written a f (exec w (main a)).1.
Proof.
  intros Hres Hd.
  exact (proj1 (proj2 (proj2 (proj2 (on_normal_paths w a Hres)))) f Hd).
Qed.

(** X18: in a run that ends normally [compute_statistics()] is called
    once, on the Tikhonov solver right after its run, and never from the
    refinement constructor on; [print_statistics()] is called on the
    Tikhonov solver and, when a refinement is selected, once more, on the
    refinement solver: the statistics of an ADMM or Primal-Dual solver are
    printed without a call of [compute_statistics()]. *)
Theorem statistics_are_computed_once (w : world) (a : Args) :
  (exec w (main a)).2 = inr tt ->
  length (List.filter is_compute_statistics (exec w (main a)).1) = 1%nat /\
  length (List.filter is_print_statistics (exec w (main a)).1)
  = S (length (option_list (dispatch_spec a))) /\
  statistics_only_for_tikhonov a (exec w (main a)).1.
Proof.
  intros Hres.
  exact (proj2 (proj2 (proj2 (proj2 (on_normal_paths w a Hres))))).
Qed.

(** *** The properties above on concrete runs *)

(** The last of three stacks as the target, on the grid of a given
    image. *)
Lemma index_out_of_range_is_an_IndexError_witness :
  [StackRef 100; StackRef 101; StackRef 102]
    ∈ omap yields_stacks (exec three_stacks (main fourth_stack)).1 /\
  (target_stack_index fourth_stack < - 3 \/ 3 <= target_stack_index fourth_stack)%Z /\
  (exec three_stacks (main fourth_stack)).2 = inl IndexError.
Proof.
  assert (Hin : [StackRef 100; StackRef 101; StackRef 102]
                  ∈ omap yields_stacks
                      (exec three_stacks (main fourth_stack)).1)
    by (apply list_elem_of_singleton; reflexivity).
  assert (Hout : (target_stack_index fourth_stack < - 3
                  \/ 3 <= target_stack_index fourth_stack)%Z)
    by (right; reflexivity).
  split; [ exact Hin | ]. split; [ exact Hout | ].
  destruct (index_out_of_range_is_an_IndexError three_stacks fourth_stack
              _ Hin Hout) as (_ & Hnone & _).
  exact (Hnone eq_refl).
Defined.

Lemma one_reader_is_read_once_witness :
  (exec three_stacks (main tv_pd)).2 = inr tt /\
  reads_once tv_pd (exec three_stacks (main tv_pd)).1.
Proof.
  split; [ reflexivity | ].
  exact (one_reader_is_read_once three_stacks tv_pd eq_refl).
Defined.

Lemma initial_value_comes_from_the_target_witness :
  (exec three_stacks (main last_stack)).2 = inr tt /\
  starts_from_target last_stack (exec three_stacks (main last_stack)).1.
Proof.
  split; [ reflexivity | ].
  exact (initial_value_comes_from_the_target three_stacks last_stack eq_refl).
Defined.

Lemma results_are_shown_newest_first_witness :
  (exec three_stacks (main tv_admm)).2 = inr tt /\
  shown (exec three_stacks (main tv_admm)).1
  = [ ([StackRef 1017; StackRef 1007;
        StackRef 100; StackRef 101; StackRef 102],
       Some 1%Z, Some "results/comparison") ].
Proof.
  split; [ reflexivity | ].
  destruct (results_are_shown_newest_first three_stacks tv_admm eq_refl)
    as (stacks & Hstacks & Hshown).
  injection Hstacks as <-. exact Hshown.
Defined.

Lemma refined_result_is_written_last_witness :
  (exec three_stacks (main huber_pd)).2 = inr tt /\
  dispatch_spec huber_pd = Some (PrimalDual "ALG2") /\
  refined_written huber_pd (PrimalDual "ALG2")
    (exec three_stacks (main huber_pd)).1.
Proof.
  split; [ reflexivity | ]. split; [ reflexivity | ].
  exact (refined_result_is_written_last three_stacks huber_pd
           (PrimalDual "ALG2") eq_refl eq_refl).
Defined.

Lemma statistics_are_computed_once_witness :
  (exec three_stacks (main tv_admm)).2 = inr tt /\
  omap computes (exec three_stacks (main tv_admm)).1 = [Solver 7] /\
  omap prints (exec three_stacks (main tv_admm)).1 = [Solver 7; Solver 17].
Proof.
  split; [ reflexivity | ].
  destruct (statistics_are_computed_once three_stacks tv_admm eq_refl)
    as (_ & _ & SRR0 & Hcomputes & _ & _ & Hprints & _).
  destruct (Hprints ADMM eq_refl) as (e & SRR & rest & _ & _ & _ & Hall).
  assert ([Solver 7] = [SRR0]) as [= <-] by exact Hcomputes.
  split; [ reflexivity | ].
  assert ([Solver 7; Solver 17] = [Solver 7; SRR]) as [= <-] by exact Hall.
  exact Hall.
Defined.


End ScriptTheory.

(* ===================================================================== *)
(** * Part II, theory: the bias-field correction                          *)
(* ===================================================================== *)

Section N4Theory.

Import N4.

Variable dir_build_cpp : string.
Variable cleared : string -> gmap string image -> gmap string image.
Variable filter : string -> gmap string image -> gmap string image.
Variable resampled_pixels : image -> geometry -> list float.

Abbreviation run :=
  (run_bias_field_correction dir_build_cpp cleared filter resampled_pixels).

#[local] Arguments command : simpl never.

Ltac known :=
  repeat (match goal with H : _ = Some _ |- _ => rewrite H end; simpl).

Ltac run_all :=
  unfold run_bias_field_correction, the_stack, clear_directory, WriteImage,
    execute_command, ReadImage, Resample, GetPixelIDValue,
    Stack_from_sitk_image, lookup_file, update_files, emit, raise,
    mbind, M_bind, bind, mret, M_ret, ret;
  simpl.

(** A call with a stack set, a mask on it and an output file left by the
    filter succeeds, in the one way described by [effects] and
    [corrected_stack]. *)
Lemma run_succeeds (self : N4BiasFieldCorrection) (st : state)
    (l : ref) (stk : Stack) (mask out : image) :
  _stack self = Some l ->
  heap st !! l = Some stk ->
  sitk_mask stk = Some mask ->
  filter (command dir_build_cpp self (filename stk))
    (handed_over cleared self stk mask (files st)) !! output_path self stk
  = Some out ->
  run self st =
    (inr {| _stack := Some l;
            _use_mask := _use_mask self;
            _use_verbose := _use_verbose self;
            _stack_corrected := Some (fresh (dom (heap st)));
            _dir_tmp := _dir_tmp self |},
     {| files := filter (command dir_build_cpp self (filename stk))
                   (handed_over cleared self stk mask (files st));
        heap := <[ fresh (dom (heap st))
                   := corrected_stack resampled_pixels stk mask out ]>
                  (heap st);
        log := log st
               ++ effects dir_build_cpp self stk mask out
                    (fresh (dom (heap st))) |}).
Proof.
  intros Hs Hl Hm.
  unfold handed_over, output_path, input_path, mask_path, effects,
    corrected_stack, mask_on, as_float64.
  run_all. known.
  destruct (_use_mask self) eqn:Hu; simpl; intros Hout; known;
    rewrite <- ?app_assoc; reflexivity.
Qed.

(** Every call either fails, leaving the heap as it was, or succeeds as in
    [run_succeeds]. *)
Lemma run_cases (self : N4BiasFieldCorrection) (st : state) :
  (exists e st', run self st = (inl e, st') /\ heap st' = heap st) \/
  (exists l stk mask out,
     _stack self = Some l /\
     heap st !! l = Some stk /\
     sitk_mask stk = Some mask /\
     filter (command dir_build_cpp self (filename stk))
       (handed_over cleared self stk mask (files st)) !! output_path self stk
     = Some out).
Proof.
  destruct (_stack self) as [l |] eqn:Hs;
    [ | left; run_all; rewrite Hs; eauto ].
  destruct (heap st !! l) as [stk |] eqn:Hl;
    [ | left; run_all; known; rewrite Hl; eauto ].
  destruct (sitk_mask stk) as [mask |] eqn:Hm.
  - destruct (filter (command dir_build_cpp self (filename stk))
                (handed_over cleared self stk mask (files st))
              !! output_path self stk)
      as [out |] eqn:Hout.
    + right. exists l, stk, mask, out. done.
    + left. revert Hout.
      unfold handed_over, output_path, input_path, mask_path.
      run_all. known.
      destruct (_use_mask self) eqn:Hu; simpl; intros Hout; known;
        rewrite Hout; simpl; eauto.
  - left. run_all. known.
    destruct (_use_mask self) eqn:Hu; simpl; known; rewrite ?Hm; simpl;
      eauto.
    match goal with
    | |- context [match ?fs !! ?p with Some _ => _ | None => _ end] =>
        destruct (fs !! p) eqn:?
    end; simpl; known; rewrite ?Hm; simpl; eauto.
Qed.

Lemma fresh_ref_is_new (h : gmap ref Stack) : h !! fresh (dom h) = None.
Proof. apply not_elem_of_dom, is_fresh. Qed.


(** C7: a call keeps the invariant of the Stacks: when the mask of every
    Stack that has one lives on the grid of its image before the call, the
    same holds of every Stack after it, whether the call succeeds or
    fails.  The Stack a successful call produces is made of the image read
    back from the output file and of the mask of the input resampled with
    that image as reference (the last two effects but one of the call), so
    that it carries a mask on the grid of the corrected image, whatever
    the grid of the input mask was. *)
Theorem corrected_mask_matches_volume
    (self : N4BiasFieldCorrection) (st : state) :
  ((forall k v, heap st !! k = Some v -> mask_matches v) ->
   forall k v, heap (run self st).2 !! k = Some v -> mask_matches v) /\
  (forall self' st',
     run self st = (inr self', st') ->
     exists l stk mask out corrected stk',
       _stack self = Some l /\
       heap st !! l = Some stk /\
       sitk_mask stk = Some mask /\
       files st' !! output_path self stk = Some out /\
       log st' = log st ++ effects dir_build_cpp self stk mask out corrected /\
       get_bias_field_corrected_stack self' = Some corrected /\
       heap st' !! corrected = Some stk' /\
       sitk stk' = as_float64 out /\
       sitk_mask stk'
       = Some {| grid := grid (sitk stk');
                 pixel_id := pixel_id mask;
                 pixels := resampled_pixels mask (grid (sitk stk')) |} /\
       is_Some (sitk_mask stk') /\
       mask_matches stk').
Proof.
  split.
  - intros Hall k v.
    destruct (run_cases self st)
      as [(e & st0 & Hfail & Hheap)
         | (l & stk & mask & out & Hs & Hl & Hm & Hout)].
    + rewrite Hfail. simpl. rewrite Hheap. apply Hall.
    + rewrite (run_succeeds self st l stk mask out Hs Hl Hm Hout). simpl.
      destruct (decide (fresh (dom (heap st)) = k)) as [<- | Hne].
      * rewrite lookup_insert_eq. intros [= <-]. reflexivity.
      * rewrite lookup_insert_ne by done. apply Hall.
  - intros self' st' Hrun.
    destruct (run_cases self st)
      as [(e & st0 & Hfail & _)
         | (l & stk & mask & out & Hs & Hl & Hm & Hout)].
    + rewrite Hfail in Hrun. discriminate Hrun.
    + rewrite (run_succeeds self st l stk mask out Hs Hl Hm Hout) in Hrun.
      injection Hrun as <- <-. simpl.
      exists l, stk, mask, out, (fresh (dom (heap st))),
        (corrected_stack resampled_pixels stk mask out).
      do 4 (split; [ done | ]).
      split; [ reflexivity | ]. split; [ reflexivity | ].
      split; [ apply lookup_insert_eq | ].
      split; [ reflexivity | ]. split; [ reflexivity | ].
      split; [ by eexists | reflexivity ].
Qed.


(** *** Edge behaviour and composition *)

Lemma append_cancel (s a b : string) : s +:+ a = s +:+ b -> a = b.
Proof.
  induction s as [| c s IH]; simpl; intros Heq; [ exact Heq | ].
  injection Heq as Heq. by apply IH.
Qed.

Lemma paths_differ (self : N4BiasFieldCorrection) (stk : Stack) :
  input_path self stk <> mask_path self stk /\
  input_path self stk <> output_path self stk /\
  mask_path self stk <> output_path self stk.
Proof.
  unfold input_path, mask_path, output_path.
  repeat split; intros Heq;
    do 2 apply append_cancel in Heq; discriminate Heq.
Qed.

(** A call on an object without a stack. *)
Lemma run_no_stack (self : N4BiasFieldCorrection) (st : state) :
  _stack self = None ->
  run self st =
    (inl AttributeError,
     {| files := cleared (_dir_tmp self) (files st);
        heap := heap st;
        log := log st ++ [ Cleared (_dir_tmp self) ] |}).
Proof. intros Hs. run_all. by rewrite Hs. Qed.

(** A call after which the filter has left no output file. *)
Lemma run_no_output (self : N4BiasFieldCorrection) (st : state)
    (l : ref) (stk : Stack) (mask : image) :
  _stack self = Some l ->
  heap st !! l = Some stk ->
  sitk_mask stk = Some mask ->
  filter (command dir_build_cpp self (filename stk))
    (handed_over cleared self stk mask (files st)) !! output_path self stk
  = None ->
  run self st =
    (inl (RuntimeError (output_path self stk)),
     {| files := filter (command dir_build_cpp self (filename stk))
                   (handed_over cleared self stk mask (files st));
        heap := heap st;
        log := log st
               ++ [ Cleared (_dir_tmp self);
                    Wrote (sitk stk) (input_path self stk) ]
               ++ (if _use_mask self
                   then [ Wrote mask (mask_path self stk) ] else [])
               ++ [ Executed (command dir_build_cpp self (filename stk)) ]
     |}).
Proof.
  intros Hs Hl Hm.
  unfold handed_over, output_path, input_path, mask_path.
  run_all. known.
  destruct (_use_mask self) eqn:Hu; simpl; intros Hout; known;
    rewrite Hout; simpl; rewrite <- ?app_assoc; reflexivity.
Qed.

(** A call on a stack that has no mask. *)
Lemma run_no_mask (self : N4BiasFieldCorrection) (st : state)
    (l : ref) (stk : Stack) :
  _stack self = Some l ->
  heap st !! l = Some stk ->
  sitk_mask stk = None ->
  let written :=
    <[ input_path self stk := sitk stk ]>
      (cleared (_dir_tmp self) (files st)) in
  let cmd := command dir_build_cpp self (filename stk) in
  let begun :=
    log st ++ [ Cleared (_dir_tmp self);
                Wrote (sitk stk) (input_path self stk) ] in
  run self st =
    if _use_mask self
    then (inl TypeError,
          {| files := written; heap := heap st; log := begun |})
    else
      match filter cmd written !! output_path self stk with
      | Some _ =>
          (inl AttributeError,
           {| files := filter cmd written;
              heap := heap st;
              log := begun ++ [ Executed cmd; Read (output_path self stk) ]
           |})
      | None =>
          (inl (RuntimeError (output_path self stk)),
           {| files := filter cmd written;
              heap := heap st;
              log := begun ++ [ Executed cmd ] |})
      end.
Proof.
  intros Hs Hl Hm. simpl.
  unfold output_path, input_path.
  run_all. known.
  destruct (_use_mask self) eqn:Hu; simpl; known; rewrite ?Hm; simpl;
    rewrite <- ?app_assoc; [ reflexivity | ].
  match goal with
  | |- context [match ?fs !! ?p with Some _ => _ | None => _ end] =>
      destruct (fs !! p) eqn:?
  end; simpl; known; rewrite ?Hm; simpl; rewrite <- ?app_assoc;
    reflexivity.
Qed.

(** X1: a corrector created without a stack has no corrected stack, and
    running it raises [AttributeError] when the filename is asked for,
    after the temporary directory has already been cleared; nothing is
    written and no command is run. *)
Theorem run_before_a_stack_is_set
    (dir_tmp : string) (use_mask use_verbose : bool) (st : state) :
  let self := init None dir_tmp use_mask use_verbose in
  get_bias_field_corrected_stack self = None /\
  run self st =
    (inl AttributeError,
     {| files := cleared dir_tmp (files st);
        heap := heap st;
        log := log st ++ [ Cleared dir_tmp ] |}).
Proof. split; [ reflexivity | ]. by apply run_no_stack. Qed.

(** X2: when the filter leaves no [<name>_corrected.nii.gz] behind, the
    call raises the read error for that path: the input files have been
    written and the command has been run, but no Stack is created and the
    heap is as before. *)
Theorem missing_output_is_a_read_error
    (self : N4BiasFieldCorrection) (st : state)
    (l : ref) (stk : Stack) (mask : image) :
  _stack self = Some l ->
  heap st !! l = Some stk ->
  sitk_mask stk = Some mask ->
  filter (command dir_build_cpp self (filename stk))
    (handed_over cleared self stk mask (files st)) !! output_path self stk
  = None ->
  (run self st).1 = inl (RuntimeError (output_path self stk)) /\
  heap (run self st).2 = heap st /\
  log (run self st).2
  = log st
    ++ [ Cleared (_dir_tmp self); Wrote (sitk stk) (input_path self stk) ]
    ++ (if _use_mask self then [ Wrote mask (mask_path self stk) ] else [])
    ++ [ Executed (command dir_build_cpp self (filename stk)) ].
Proof.
  intros Hs Hl Hm Hout.
  by rewrite (run_no_output self st l stk mask Hs Hl Hm Hout).
Qed.

(** X3: a stack without a mask cannot be corrected, whatever [use_mask]
    says.  With [use_mask] set the call fails at writing the mask, before
    the command is run; without it the call still runs the command, and
    fails afterwards, because the mask is resampled unconditionally. *)
Theorem a_mask_is_needed_even_when_unused
    (self : N4BiasFieldCorrection) (st : state) (l : ref) (stk : Stack) :
  _stack self = Some l ->
  heap st !! l = Some stk ->
  sitk_mask stk = None ->
  let begun :=
    log st ++ [ Cleared (_dir_tmp self);
                Wrote (sitk stk) (input_path self stk) ] in
  let cmd := Executed (command dir_build_cpp self (filename stk)) in
  (exists e, (run self st).1 = inl e) /\
  heap (run self st).2 = heap st /\
  (if _use_mask self
   then log (run self st).2 = begun
   else exists more, log (run self st).2 = begun ++ cmd :: more).
Proof.
  intros Hs Hl Hm. simpl.
  rewrite (run_no_mask self st l stk Hs Hl Hm).
  destruct (_use_mask self); simpl; [ by eauto | ].
  destruct (filter _ _ !! _); simpl; by eauto.
Qed.

(** X4: the call succeeds exactly when a stack is set, the stack has a
    mask, and the filter has left the output file. *)
Theorem succeeds_exactly_when
    (self : N4BiasFieldCorrection) (st : state) :
  (exists self', (run self st).1 = inr self') <->
  (exists l stk mask out,
     _stack self = Some l /\
     heap st !! l = Some stk /\
     sitk_mask stk = Some mask /\
     filter (command dir_build_cpp self (filename stk))
       (handed_over cleared self stk mask (files st)) !! output_path self stk
     = Some out).
Proof.
  split.
  - intros [self' Hok].
    destruct (run_cases self st) as [(e & st' & Hfail & _) | Hyes];
      [ | exact Hyes ].
    rewrite Hfail in Hok. discriminate Hok.
  - intros (l & stk & mask & out & Hs & Hl & Hm & Hout).
    rewrite (run_succeeds self st l stk mask out Hs Hl Hm Hout).
    by eexists.
Qed.

(** X5: a call never changes or removes a Stack that exists; a call that
    fails leaves the heap as it was, and a call that succeeds adds exactly
    one object, the corrected Stack. *)
Theorem the_heap_only_grows (self : N4BiasFieldCorrection) (st : state) :
  (forall k v, heap st !! k = Some v -> heap (run self st).2 !! k = Some v)
  /\
  (forall e, (run self st).1 = inl e -> heap (run self st).2 = heap st) /\
  (forall self',
     (run self st).1 = inr self' ->
     exists corrected stk',
       get_bias_field_corrected_stack self' = Some corrected /\
       heap st !! corrected = None /\
       heap (run self st).2 = <[ corrected := stk' ]> (heap st)).
Proof.
  destruct (run_cases self st)
    as [(e & st' & Hfail & Hheap)
       | (l & stk & mask & out & Hs & Hl & Hm & Hout)].
  - rewrite Hfail. simpl. rewrite Hheap.
    split; [ done | split; [ done | ] ].
    intros self' Hok. discriminate Hok.
  - rewrite (run_succeeds self st l stk mask out Hs Hl Hm Hout). simpl.
    pose proof (fresh_ref_is_new (heap st)) as Hnew.
    split; [ | split ].
    + intros k v Hk. rewrite lookup_insert_ne; [ done | congruence ].
    + intros e He. discriminate He.
    + intros self' [= <-]. simpl. by eexists _, _.
Qed.

(** X6: the command is run on a file system in which [<name>.nii.gz] is
    the image of the stack and, when [use_mask] is set, [<name>_mask.nii.gz]
    is its mask; the three paths are distinct, so the mask does not
    overwrite the image, and the output path holds only what clearing the
    directory left there. *)
Theorem files_the_filter_is_run_on
    (self : N4BiasFieldCorrection) (st : state)
    (l : ref) (stk : Stack) (mask : image) :
  _stack self = Some l ->
  heap st !! l = Some stk ->
  sitk_mask stk = Some mask ->
  exists given,
    files (run self st).2
    = filter (command dir_build_cpp self (filename stk)) given /\
    given !! input_path self stk = Some (sitk stk) /\
    given !! mask_path self stk
    = (if _use_mask self then Some mask
       else cleared (_dir_tmp self) (files st) !! mask_path self stk) /\
    given !! output_path self stk
    = cleared (_dir_tmp self) (files st) !! output_path self stk.
Proof.
  intros Hs Hl Hm.
  destruct (paths_differ self stk) as (Him & Hio & Hmo).
  exists (handed_over cleared self stk mask (files st)). split.
  - destruct (filter (command dir_build_cpp self (filename stk))
                (handed_over cleared self stk mask (files st))
              !! output_path self stk) as [out |] eqn:Hout.
    + by rewrite (run_succeeds self st l stk mask out Hs Hl Hm Hout).
    + by rewrite (run_no_output self st l stk mask Hs Hl Hm Hout).
  - unfold handed_over. destruct (_use_mask self).
    + rewrite lookup_insert_ne by done. rewrite !lookup_insert_eq.
      rewrite !lookup_insert_ne by done. done.
    + rewrite lookup_insert_eq. rewrite !lookup_insert_ne by done. done.
Qed.

(** X7: a corrected file left over from an earlier call is never taken for
    the result: if clearing the directory removes the file at the output
    path and the filter does not write it, the call fails with the read
    error, even though the file existed before the call. *)
Theorem a_stale_output_is_not_read
    (self : N4BiasFieldCorrection) (st : state)
    (l : ref) (stk : Stack) (mask : image) :
  _stack self = Some l ->
  heap st !! l = Some stk ->
  sitk_mask stk = Some mask ->
  cleared (_dir_tmp self) (files st) !! output_path self stk = None ->
  (forall cmd fs,
     filter cmd fs !! output_path self stk = fs !! output_path self stk) ->
  (run self st).1 = inl (RuntimeError (output_path self stk)).
Proof.
  intros Hs Hl Hm Hclear Hidle.
  destruct (paths_differ self stk) as (Him & Hio & Hmo).
  rewrite (run_no_output self st l stk mask Hs Hl Hm); [ done | ].
  rewrite Hidle. unfold handed_over.
  destruct (_use_mask self); rewrite !lookup_insert_ne by done; done.
Qed.

(** X8: correcting twice keeps the first result: the second call puts its
    corrected Stack in another new object and leaves the first corrected
    Stack as it was. *)
Theorem a_second_run_keeps_the_first_result
    (self self1 self2 : N4BiasFieldCorrection) (st st1 st2 : state) :
  run self st = (inr self1, st1) ->
  run self1 st1 = (inr self2, st2) ->
  exists first second stk1,
    get_bias_field_corrected_stack self1 = Some first /\
    get_bias_field_corrected_stack self2 = Some second /\
    first <> second /\
    heap st1 !! first = Some stk1 /\
    heap st2 !! first = Some stk1.
Proof.
  intros Hrun1 Hrun2.
  assert (Hfirst : exists first stk1,
            get_bias_field_corrected_stack self1 = Some first /\
            heap st1 !! first = Some stk1).
  { destruct (run_cases self st)
      as [(e & st' & Hfail & _)
         | (l & stk & mask & out & Hs & Hl & Hm & Hout)];
      [ rewrite Hfail in Hrun1; discriminate Hrun1 | ].
    rewrite (run_succeeds self st l stk mask out Hs Hl Hm Hout) in Hrun1.
    injection Hrun1 as <- <-. simpl.
    eexists _, _. split; [ reflexivity | apply lookup_insert_eq ]. }
  destruct Hfirst as (first & stk1 & Hget1 & Hheap1).
  destruct (run_cases self1 st1)
    as [(e & st' & Hfail & _) | (l & stk & mask & out & Hs & Hl & Hm & Hout)];
    [ rewrite Hfail in Hrun2; discriminate Hrun2 | ].
  rewrite (run_succeeds self1 st1 l stk mask out Hs Hl Hm Hout) in Hrun2.
  injection Hrun2 as <- <-. simpl.
  pose proof (fresh_ref_is_new (heap st1)) as Hnew.
  assert (Hne : first <> fresh (dom (heap st1))) by congruence.
  exists first, (fresh (dom (heap st1))), stk1.
  repeat split; [ done | done | done | ].
  by rewrite lookup_insert_ne.
Qed.

(** X19: [use_verbose] and a corrected stack from an earlier call have no
    effect on a call: two correctors with the same stack, [use_mask] and
    directory leave the same state behind and end alike, with the same
    exception or with a corrected Stack in the same new object. *)
Theorem verbosity_and_earlier_results_are_ignored
    (self other : N4BiasFieldCorrection) (st : state) :
  _stack self = _stack other ->
  _use_mask self = _use_mask other ->
  _dir_tmp self = _dir_tmp other ->
  (run self st).2 = (run other st).2 /\
  match (run self st).1, (run other st).1 with
  | inl e, inl e' => e = e'
  | inr self', inr other' =>
      get_bias_field_corrected_stack self'
      = get_bias_field_corrected_stack other'
  | _, _ => False
  end.
Proof.
  destruct self as [s1 m1 v1 c1 d1], other as [s2 m2 v2 c2 d2]. simpl.
  intros <- <- <-.
  set (self := {| _stack := s1; _use_mask := m1; _use_verbose := v1;
                  _stack_corrected := c1; _dir_tmp := d1 |}).
  set (other := {| _stack := s1; _use_mask := m1; _use_verbose := v2;
                   _stack_corrected := c2; _dir_tmp := d1 |}).
  destruct s1 as [l |];
    [ | by rewrite (run_no_stack self), (run_no_stack other) ].
  destruct (heap st !! l) as [stk |] eqn:Hl;
    [ | subst self other; run_all; rewrite Hl; by simpl ].
  destruct (sitk_mask stk) as [mask |] eqn:Hm.
  - destruct (filter (command dir_build_cpp self (filename stk))
                (handed_over cleared self stk mask (files st))
              !! output_path self stk) as [out |] eqn:Hout.
    + rewrite (run_succeeds self st l stk mask out eq_refl Hl Hm Hout).
      rewrite (run_succeeds other st l stk mask out eq_refl Hl Hm Hout).
      by split.
    + rewrite (run_no_output self st l stk mask eq_refl Hl Hm Hout).
      rewrite (run_no_output other st l stk mask eq_refl Hl Hm Hout).
      by split.
  - rewrite (run_no_mask self st l stk eq_refl Hl Hm).
    rewrite (run_no_mask other st l stk eq_refl Hl Hm).
    subst self other. simpl. destruct m1; [ by split | ].
    by destruct (filter _ _ !! _).
Qed.

End N4Theory.

(** ** The concrete run of [N4.corrector] on [N4.brain] *)

Section N4Run.

Import N4.

Abbreviation run_it :=
  (run_bias_field_correction "build" wipe some_filter nearest corrector
     before).


Lemma corrected_mask_matches_volume_witness :
  exists self' st',
    run_it = (inr self', st') /\
    exists corrected stk',
      get_bias_field_corrected_stack self' = Some corrected /\
      heap st' !! corrected = Some stk' /\
      sitk stk' = as_float64 filter_output /\
      sitk_mask stk' = Some (mask_on nearest brain_mask (sitk stk')) /\
      mask_matches stk'.
Proof.
  assert (Hrun : run_it = (inr (N4.after_of run_it corrector), run_it.2))
    by reflexivity.
  eexists _, _. split; [ exact Hrun | ].
  destruct (proj2 (corrected_mask_matches_volume "build" wipe some_filter
                     nearest corrector before) _ _ Hrun)
    as (l & stk & mask & out & corrected & stk' & Hs & Hl & Hm & Hout
        & _ & Hget & Hheap & Himage & Hmask & _ & Hinv).
  assert (Some 0%nat = Some l) as [= <-] by exact Hs.
  assert (Some brain = Some stk) as [= <-] by exact Hl.
  assert (Some brain_mask = Some mask) as [= <-] by exact Hm.
  assert (Some filter_output = Some out) as [= <-] by exact Hout.
  exists corrected, stk'.
  split; [ exact Hget | ]. split; [ exact Hheap | ].
  split; [ exact Himage | ]. split; [ exact Hmask | exact Hinv ].
Defined.


Lemma missing_output_is_a_read_error_witness :
  _stack corrector = Some 0%nat /\
  heap before !! 0%nat = Some brain /\
  sitk_mask brain = Some brain_mask /\
  idle_filter (command "build" corrector (filename brain))
    (handed_over wipe corrector brain brain_mask (files before))
  !! output_path corrector brain = None /\
  (run_bias_field_correction "build" wipe idle_filter nearest corrector
     before).1
  = inl (RuntimeError "/tmp/N4/brain_corrected.nii.gz").
Proof.
  repeat (split; [ reflexivity | ]).
  exact (proj1 (missing_output_is_a_read_error "build" wipe idle_filter
                  nearest corrector before 0%nat brain brain_mask
                  eq_refl eq_refl eq_refl eq_refl)).
Defined.

Lemma a_mask_is_needed_even_when_unused_witness :
  _stack corrector = Some 0%nat /\
  heap before_maskless !! 0%nat = Some maskless /\
  sitk_mask maskless = None /\
  heap (run_bias_field_correction "build" wipe some_filter nearest corrector
          before_maskless).2
  = heap before_maskless.
Proof.
  repeat (split; [ reflexivity | ]).
  exact (proj1 (proj2 (a_mask_is_needed_even_when_unused "build" wipe
                         some_filter nearest corrector before_maskless
                         0%nat maskless eq_refl eq_refl eq_refl))).
Defined.

Lemma files_the_filter_is_run_on_witness :
  _stack corrector = Some 0%nat /\
  heap before !! 0%nat = Some brain /\
  sitk_mask brain = Some brain_mask /\
  exists given,
    files run_it.2
    = some_filter (command "build" corrector (filename brain)) given /\
    given !! "/tmp/N4/brain.nii.gz" = Some (sitk brain) /\
    given !! "/tmp/N4/brain_mask.nii.gz" = Some brain_mask.
Proof.
  repeat (split; [ reflexivity | ]).
  destruct (files_the_filter_is_run_on "build" wipe some_filter nearest
              corrector before 0%nat brain brain_mask
              eq_refl eq_refl eq_refl)
    as (given & Hfiles & Himage & Hmask & _).
  exists given. repeat split; assumption.
Defined.

Lemma a_stale_output_is_not_read_witness :
  files stale !! "/tmp/N4/brain_corrected.nii.gz" = Some filter_output /\
  _stack corrector = Some 0%nat /\
  heap stale !! 0%nat = Some brain /\
  sitk_mask brain = Some brain_mask /\
  wipe (_dir_tmp corrector) (files stale) !! output_path corrector brain
  = None /\
  (run_bias_field_correction "build" wipe idle_filter nearest corrector
     stale).1
  = inl (RuntimeError "/tmp/N4/brain_corrected.nii.gz").
Proof.
  repeat (split; [ reflexivity | ]).
  exact (a_stale_output_is_not_read "build" wipe idle_filter nearest
           corrector stale 0%nat brain brain_mask
           eq_refl eq_refl eq_refl eq_refl (fun _ _ => eq_refl)).
Defined.

Lemma a_second_run_keeps_the_first_result_witness :
  exists self1 st1 self2 st2,
    run_it = (inr self1, st1) /\
    run_bias_field_correction "build" wipe some_filter nearest self1 st1
    = (inr self2, st2) /\
    exists first second stk1,
      get_bias_field_corrected_stack self1 = Some first /\
      get_bias_field_corrected_stack self2 = Some second /\
      first <> second /\
      heap st1 !! first = Some stk1 /\
      heap st2 !! first = Some stk1.
Proof.
  assert (Hrun1 : run_it = (inr (after_of run_it corrector), run_it.2))
    by reflexivity.
  set (self1 := after_of run_it corrector) in *.
  set (st1 := run_it.2) in *.
  set (again := run_bias_field_correction "build" wipe some_filter nearest
                  self1 st1).
  assert (Hrun2 : again = (inr (after_of again self1), again.2))
    by reflexivity.
  exists self1, st1, (after_of again self1), again.2.
  split; [ exact Hrun1 | ]. split; [ exact Hrun2 | ].
  exact (a_second_run_keeps_the_first_result "build" wipe some_filter
           nearest corrector self1 _ before st1 _ Hrun1 Hrun2).
Defined.

Lemma verbosity_and_earlier_results_are_ignored_witness :
  _stack corrector = _stack (init (Some 0%nat) "/tmp/N4/" true true) /\
  _use_mask corrector = true /\
  (run_bias_field_correction "build" wipe some_filter nearest
     (init (Some 0%nat) "/tmp/N4/" true true) before).2
  = run_it.2.
Proof.
  repeat (split; [ reflexivity | ]).
  symmetry.
  exact (proj1 (verbosity_and_earlier_results_are_ignored "build" wipe
                  some_filter nearest corrector
                  (init (Some 0%nat) "/tmp/N4/" true true) before
                  eq_refl eq_refl eq_refl)).
Defined.

End N4Run.
